(** * go-oidc-middleware: the token validator and its key manager

    A shallow embedding of [oidc.go] (package [oidc]): the policy gates,
    the signature-algorithm resolver, the required-claims check and
    [ParseToken], together with a model of the key manager that
    [ParseToken] drives.

    Conventions.
    - Go strings are [string]; [jwa.KeyType] and [jwa.SignatureAlgorithm]
      are Go string types and are kept as strings.
    - [time.Time] is an instant in nanoseconds ([Z]); [time.Duration] is a
      count of nanoseconds ([Z]).
    - A Go function returning [(T, error)] returns [error + T] here
      ([inl] is the error).
    - Methods with a pointer receiver thread the receiver through a small
      state-and-error monad. *)

From Stdlib Require Import ZArith Ascii String List Bool Lia Permutation.
From stdpp Require Import base option gmap strings.
Import ListNotations.

Local Open Scope Z_scope.
Local Open Scope string_scope.
Local Set Warnings "-register-all".

(** ** Keys, headers, tokens *)

Definition KeyType := string.
Definition SignatureAlgorithm := string.

Module jwa.
Definition RSA : KeyType := "RSA".
Definition EC : KeyType := "EC".
Definition RS256 : SignatureAlgorithm := "RS256".
Definition RS384 : SignatureAlgorithm := "RS384".
Definition RS512 : SignatureAlgorithm := "RS512".
Definition ES256 : SignatureAlgorithm := "ES256".
End jwa.

(** [jwk.Key]: the attributes the validator reads, and the key material
    (an opaque number standing for the public key). *)
Record Key : Type := mkKey {
  key_KeyType : KeyType;
  key_Algorithm : string;
  key_KeyID : string;
  key_material : Z
}.

Global Instance Key_eq_dec : EqDecision Key.
Proof. solve_decision. Defined.

(** [jws.Headers]: the protected header of one signature. *)
Record Headers : Type := mkHeaders {
  hdr_KeyID : string;
  hdr_Type : string;
  hdr_Algorithm : string
}.

Definition Time := Z.
Definition Duration := Z.

Module time.
Definition Nanosecond : Duration := 1.
Definition Millisecond : Duration := 1000000.
Definition Second : Duration := 1000000000.
(** [t.Round(0)] strips the monotonic clock reading; the instant is
    unchanged. *)
Definition Round0 (t : Time) : Time := t.
Definition Add (t : Time) (d : Duration) : Time := t + d.
Definition After (t u : Time) : bool := Z.ltb u t.
End time.

(** [jwt.Token]: the registered claims the gates read. *)
Record Token : Type := mkToken {
  tok_Expiration : Time;
  tok_Issuer : string;
  tok_Audience : list string;
  tok_id : Z
}.

(** ** Errors

    [errSignatureVerification] is the package-level sentinel
    [fmt.Errorf("failed to verify signature")].  [ExternalError] is an
    error value made by a library; only its message is known.  [Errorf]
    is [fmt.Errorf] with its format and its string operands; [ErrorfW]
    is [fmt.Errorf] whose format ends in [%w], with the wrapped error. *)
Inductive error : Type :=
| errSignatureVerification
| ExternalError (msg : string)
| Errorf (format : string) (args : list string)
| ErrorfW (format : string) (args : list string) (wrapped : error).

Definition errSignatureVerification_Error : string := "failed to verify signature".

(** [errors.Is(err, errSignatureVerification)]: identity with the
    sentinel along the [%w] chain. *)
Fixpoint errors_Is_errSignatureVerification (err : error) : bool :=
  match err with
  | errSignatureVerification => true
  | ExternalError _ => false
  | Errorf _ _ => false
  | ErrorfW _ _ e => errors_Is_errSignatureVerification e
  end.

(** [strings.Contains(s, substr)]. *)
Fixpoint strings_Contains (s substr : string) : bool :=
  if String.prefix substr s then true
  else match s with
       | EmptyString => false
       | String _ s' => strings_Contains s' substr
       end.

(** [strings.TrimSuffix(s, "/")]. *)
Fixpoint strings_TrimSuffix_slash (s : string) : string :=
  match s with
  | EmptyString => EmptyString
  | String c EmptyString => if Ascii.eqb c "/"%char then EmptyString else s
  | String c s' => String c (strings_TrimSuffix_slash s')
  end.

Definition GetDiscoveryUriFromIssuer (issuer : string) : string :=
  strings_TrimSuffix_slash issuer +:+ "/.well-known/openid-configuration".

(** ** Policy gates *)

Fixpoint isTokenAudienceValid_loop (requiredAudience : string) (audiences : list string) : bool :=
  match audiences with
  | [] => false
  | audience :: rest =>
      if String.eqb audience requiredAudience then true
      else isTokenAudienceValid_loop requiredAudience rest
  end.

Definition isTokenAudienceValid (requiredAudience : string) (audiences : list string) : bool :=
  if String.eqb requiredAudience "" then true
  else isTokenAudienceValid_loop requiredAudience audiences.

(** [now] is the value of [time.Now()] read by the gate. *)
Definition isTokenExpirationValid (now : Time) (expiration : Time) (allowedDrift : Duration) : bool :=
  let expirationWithAllowedDrift := time.Add (time.Round0 expiration) allowedDrift in
  time.After expirationWithAllowedDrift now.

Definition isTokenIssuerValid (requiredIssuer tokenIssuer : string) : bool :=
  if String.eqb requiredIssuer "" then false
  else String.eqb tokenIssuer requiredIssuer.

(** ** What the validator is given

    Three interfaces stand for code that is not part of [oidc.go]:
    the jwx library ([jwa], [jws], [jwt]), the claim conversion helpers
    [getCtyValues] and [isCtyValueValid], and the key manager
    ([keyHandler]) with the network behind it. *)

(** The jwx library.  An error of the library is known by its message. *)
Class Library (GoValue : Type) : Type := {
  (** the table [allSignatureAlgorithms] consulted by
      [jwa.SignatureAlgorithm.Accept] *)
  allSignatureAlgorithms : list SignatureAlgorithm;
  (** [jws.ParseString(s)] followed by [msg.Signatures()], each with its
      [ProtectedHeaders()] *)
  jws_ParseString : string -> string + list Headers;
  (** [jwt.ParseString(s, jwt.WithVerify(alg, key))] *)
  jwt_ParseString : string -> SignatureAlgorithm -> Key -> string + Token;
  (** [token.AsMap(ctx)] *)
  Token_AsMap : Token -> string + gmap string GoValue
}.

(** The claim conversion helpers; a Go function returning only [error]
    returns [option error] ([None] is [nil]). *)
Class ClaimsMatcher (GoValue : Type) : Type := {
  ctyValue : Type;
  getCtyValues : GoValue -> GoValue -> error + (ctyValue * ctyValue);
  isCtyValueValid : ctyValue -> ctyValue -> option error
}.

Inductive HttpClient : Type :=
| DefaultClient
| CustomClient (id : nat).

(** A [*keyHandler] is an address; the key managers live in the world.
    A [*http.Client] is [option HttpClient], [None] being nil. *)
Definition keyHandlerPtr := nat.

(** The key manager and the discovery endpoint.  [World] holds whatever
    they read and change: the installed key sets, the network, the clock. *)
Class KeyManager : Type := {
  World : Type;
  (** [time.Now()] *)
  time_Now : World -> Time;
  (** the HTTP exchange and JSON decoding of [getJwksUriFromDiscoveryUri]:
      the decoded [jwks_uri] field, or the error met on the way *)
  fetchDiscoveryData : option HttpClient -> string -> Duration -> World -> World * (error + string);
  newKeyHandler : option HttpClient -> string -> Duration -> Z -> bool -> World -> World * (error + keyHandlerPtr);
  getKey : keyHandlerPtr -> string -> World -> World * (error + Key);
  waitForUpdateKeySetAndGetKey : keyHandlerPtr -> World -> World * (error + Key)
}.

(** ** Signature-algorithm resolver *)

Definition SignatureAlgorithm_Accept {V} `{Library V} (s : string) : option error :=
  if existsb (String.eqb s) allSignatureAlgorithms then None
  else Some (ExternalError "invalid jwa.SignatureAlgorithm value").

Definition getSignatureAlgorithmFromString {V} `{Library V} (s : string) : error + SignatureAlgorithm :=
  match SignatureAlgorithm_Accept s with
  | Some err => inl err
  | None => inr s
  end.

Definition getSignatureAlgorithm {V} `{Library V}
    (kty : KeyType) (keyAlg : string) (fallbackAlg : SignatureAlgorithm)
  : error + SignatureAlgorithm :=
  if negb (String.eqb keyAlg "") then getSignatureAlgorithmFromString keyAlg
  else if negb (String.eqb fallbackAlg "") then inr fallbackAlg
  else if String.eqb kty jwa.RSA then inr jwa.RS256
  else if String.eqb kty jwa.EC then inr jwa.ES256
  else inl (Errorf "unable to get signature algorithm with kty=%s, alg=%s, fallbackAlg=%s"
              [kty; keyAlg; fallbackAlg]).

(** ** Token headers *)

Definition getHeadersFromTokenString {V} `{Library V} (tokenString : string) : error + Headers :=
  match jws_ParseString tokenString with
  | inl msg => inl (ErrorfW "unable to parse tokenString: %w" [] (ExternalError msg))
  | inr signatures =>
      match signatures with
      | [headers] => inr headers
      | _ => inl (Errorf "more than one signature in token" [])
      end
  end.

Definition getKeyIDFromTokenString {V} `{Library V} (tokenString : string) : error + string :=
  match getHeadersFromTokenString tokenString with
  | inl err => inl err
  | inr headers =>
      let keyID := hdr_KeyID headers in
      if String.eqb keyID "" then inl (Errorf "token header does not contain key id (kid)" [])
      else inr keyID
  end.

Definition getTokenTypeFromTokenString {V} `{Library V} (tokenString : string) : error + string :=
  match getHeadersFromTokenString tokenString with
  | inl err => inl err
  | inr headers =>
      let tokenType := hdr_Type headers in
      if String.eqb tokenType "" then inl (Errorf "token header does not contain type (typ)" [])
      else inr tokenType
  end.

Definition isTokenTypeValid {V} `{Library V} (requiredTokenType tokenString : string) : bool :=
  if String.eqb requiredTokenType "" then true
  else match getTokenTypeFromTokenString tokenString with
       | inl _ => false
       | inr tokenType => String.eqb tokenType requiredTokenType
       end.

(** ** Signature verification *)

Definition getAndValidateTokenFromString {V} `{Library V}
    (tokenString : string) (key : Key) (alg : SignatureAlgorithm) : error + Token :=
  match jwt_ParseString tokenString alg key with
  | inl msg =>
      if strings_Contains msg errSignatureVerification_Error
      then inl errSignatureVerification
      else inl (ExternalError msg)
  | inr token => inr token
  end.

(** ** Required claims

    [requiredClaims] is the sequence of entries in the order in which the
    [range] loop of this call visits the map (Go leaves that order
    unspecified); [tokenClaims] is only looked up. *)
Fixpoint isRequiredClaimsValid {V} `{ClaimsMatcher V}
    (requiredClaims : list (string * V)) (tokenClaims : gmap string V) : option error :=
  match requiredClaims with
  | [] => None
  | (requiredKey, requiredValue) :: rest =>
      match tokenClaims !! requiredKey with
      | None => Some (Errorf "token does not have the claim: %s" [requiredKey])
      | Some tokenValue =>
          match getCtyValues requiredValue tokenValue with
          | inl err => Some err
          | inr (required, received) =>
              match isCtyValueValid required received with
              | Some err => Some (ErrorfW "claim %q not valid: %w" [requiredKey] err)
              | None => isRequiredClaimsValid rest tokenClaims
              end
          end
      end
  end.

(** ** Options and handler *)

Record Options (V : Type) : Type := mkOptions {
  Issuer : string;
  DiscoveryUri : string;
  JwksUri : string;
  JwksFetchTimeout : Duration;
  JwksRateLimit : Z;
  FallbackSignatureAlgorithm : string;
  AllowedTokenDrift : Duration;
  LazyLoadJwks : bool;
  RequiredTokenType : string;
  RequiredAudience : string;
  (** [None] is the nil map *)
  RequiredClaims : option (list (string * V));
  DisableKeyID : bool;
  (** [None] is the nil pointer *)
  HttpClient_ : option HttpClient
}.
Arguments mkOptions {V}.
Arguments Issuer {V}.
Arguments DiscoveryUri {V}.
Arguments JwksUri {V}.
Arguments JwksFetchTimeout {V}.
Arguments JwksRateLimit {V}.
Arguments FallbackSignatureAlgorithm {V}.
Arguments AllowedTokenDrift {V}.
Arguments LazyLoadJwks {V}.
Arguments RequiredTokenType {V}.
Arguments RequiredAudience {V}.
Arguments RequiredClaims {V}.
Arguments DisableKeyID {V}.
Arguments HttpClient_ {V}.

Record handler (V : Type) : Type := mkHandler {
  issuer : string;
  discoveryUri : string;
  jwksUri : string;
  jwksFetchTimeout : Duration;
  jwksRateLimit : Z;
  fallbackSignatureAlgorithm : SignatureAlgorithm;
  allowedTokenDrift : Duration;
  requiredAudience : string;
  requiredTokenType : string;
  requiredClaims : option (list (string * V));
  disableKeyID : bool;
  httpClient : option HttpClient;
  keyHandler : option keyHandlerPtr
}.
Arguments mkHandler {V}.
Arguments issuer {V}.
Arguments discoveryUri {V}.
Arguments jwksUri {V}.
Arguments jwksFetchTimeout {V}.
Arguments jwksRateLimit {V}.
Arguments fallbackSignatureAlgorithm {V}.
Arguments allowedTokenDrift {V}.
Arguments requiredAudience {V}.
Arguments requiredTokenType {V}.
Arguments requiredClaims {V}.
Arguments disableKeyID {V}.
Arguments httpClient {V}.
Arguments keyHandler {V}.

(** Field assignments [h.f = v]. *)
Definition set_discoveryUri {V} (v : string) (h : handler V) : handler V :=
  mkHandler (issuer h) v (jwksUri h) (jwksFetchTimeout h) (jwksRateLimit h)
    (fallbackSignatureAlgorithm h) (allowedTokenDrift h) (requiredAudience h)
    (requiredTokenType h) (requiredClaims h) (disableKeyID h) (httpClient h) (keyHandler h).

Definition set_jwksUri {V} (v : string) (h : handler V) : handler V :=
  mkHandler (issuer h) (discoveryUri h) v (jwksFetchTimeout h) (jwksRateLimit h)
    (fallbackSignatureAlgorithm h) (allowedTokenDrift h) (requiredAudience h)
    (requiredTokenType h) (requiredClaims h) (disableKeyID h) (httpClient h) (keyHandler h).

Definition set_jwksFetchTimeout {V} (v : Duration) (h : handler V) : handler V :=
  mkHandler (issuer h) (discoveryUri h) (jwksUri h) v (jwksRateLimit h)
    (fallbackSignatureAlgorithm h) (allowedTokenDrift h) (requiredAudience h)
    (requiredTokenType h) (requiredClaims h) (disableKeyID h) (httpClient h) (keyHandler h).

Definition set_jwksRateLimit {V} (v : Z) (h : handler V) : handler V :=
  mkHandler (issuer h) (discoveryUri h) (jwksUri h) (jwksFetchTimeout h) v
    (fallbackSignatureAlgorithm h) (allowedTokenDrift h) (requiredAudience h)
    (requiredTokenType h) (requiredClaims h) (disableKeyID h) (httpClient h) (keyHandler h).

Definition set_fallbackSignatureAlgorithm {V} (v : SignatureAlgorithm) (h : handler V) : handler V :=
  mkHandler (issuer h) (discoveryUri h) (jwksUri h) (jwksFetchTimeout h) (jwksRateLimit h)
    v (allowedTokenDrift h) (requiredAudience h)
    (requiredTokenType h) (requiredClaims h) (disableKeyID h) (httpClient h) (keyHandler h).

Definition set_allowedTokenDrift {V} (v : Duration) (h : handler V) : handler V :=
  mkHandler (issuer h) (discoveryUri h) (jwksUri h) (jwksFetchTimeout h) (jwksRateLimit h)
    (fallbackSignatureAlgorithm h) v (requiredAudience h)
    (requiredTokenType h) (requiredClaims h) (disableKeyID h) (httpClient h) (keyHandler h).

Definition set_httpClient {V} (v : option HttpClient) (h : handler V) : handler V :=
  mkHandler (issuer h) (discoveryUri h) (jwksUri h) (jwksFetchTimeout h) (jwksRateLimit h)
    (fallbackSignatureAlgorithm h) (allowedTokenDrift h) (requiredAudience h)
    (requiredTokenType h) (requiredClaims h) (disableKeyID h) v (keyHandler h).

Definition set_keyHandler {V} (v : option keyHandlerPtr) (h : handler V) : handler V :=
  mkHandler (issuer h) (discoveryUri h) (jwksUri h) (jwksFetchTimeout h) (jwksRateLimit h)
    (fallbackSignatureAlgorithm h) (allowedTokenDrift h) (requiredAudience h)
    (requiredTokenType h) (requiredClaims h) (disableKeyID h) (httpClient h) v.

(** ** The monad of handler methods

    A method of [*handler] runs on the handler it points to and on the
    world.  It returns a value, returns an error, or panics (a nil
    pointer dereference).  [st_calls] is a ghost log of the calls made to
    the key manager and to the signature check, each with its result. *)

Inductive outcome (A : Type) : Type :=
| Ok (a : A)
| Err (e : error)
| Panic.
Arguments Ok {A}.
Arguments Err {A}.
Arguments Panic {A}.

Definition outcome_of_sum {A} (r : error + A) : outcome A :=
  match r with inl e => Err e | inr a => Ok a end.

Inductive Call : Type :=
| CallNewKeyHandler (res : error + keyHandlerPtr)
| CallGetKey (keyID : string) (res : error + Key)
| CallWaitForUpdateKeySetAndGetKey (res : error + Key)
| CallVerify (key : Key) (alg : SignatureAlgorithm) (res : error + Token).

Record PState (V : Type) `{KeyManager} : Type := mkPState {
  st_handler : handler V;
  st_world : World;
  st_calls : list Call
}.
Arguments mkPState {V _}.
Arguments st_handler {V _}.
Arguments st_world {V _}.
Arguments st_calls {V _}.

Definition M (V : Type) `{KeyManager} (A : Type) : Type := PState V -> PState V * outcome A.

Section Monad.
Context {V : Type} `{KM : KeyManager}.

Definition ret {A} (a : A) : M V A := fun st => (st, Ok a).

Definition throw {A} (e : error) : M V A := fun st => (st, Err e).

Definition bind {A B} (c : M V A) (k : A -> M V B) : M V B :=
  fun st =>
    match c st with
    | (st', Ok a) => k a st'
    | (st', Err e) => (st', Err e)
    | (st', Panic) => (st', Panic)
    end.

(** [v, err := f(); if err != nil { return nil, err }] for a pure [f]. *)
Definition lift {A} (r : error + A) : M V A := fun st => (st, outcome_of_sum r).

(** [if err != nil { return nil, fmt.Errorf(format, args..., err) }] *)
Definition wrapError {A} (format : string) (args : list string) (c : M V A) : M V A :=
  fun st =>
    match c st with
    | (st', Err e) => (st', Err (ErrorfW format args e))
    | r => r
    end.

(** Runs [c] and hands its error to the caller instead of returning it. *)
Definition try {A} (c : M V A) : M V (error + A) :=
  fun st =>
    match c st with
    | (st', Ok a) => (st', Ok (inr a))
    | (st', Err e) => (st', Ok (inl e))
    | (st', Panic) => (st', Panic)
    end.

Definition getHandler : M V (handler V) := fun st => (st, Ok (st_handler st)).

Definition modifyHandler (f : handler V -> handler V) : M V unit :=
  fun st => (mkPState (f (st_handler st)) (st_world st) (st_calls st), Ok tt).

Definition now : M V Time := fun st => (st, Ok (time_Now (st_world st))).

(** A call into the world, logged by [log]. *)
Definition call {A} (f : World -> World * (error + A)) (log : (error + A) -> list Call) : M V A :=
  fun st =>
    let (w, r) := f (st_world st) in
    (mkPState (st_handler st) w (st_calls st ++ log r), outcome_of_sum r).

End Monad.

Notation "'let*' x ':=' c 'in' k" := (bind c (fun x => k))
  (at level 10, x name, c at level 100, k at level 200).

(** ** The validator *)

Section Validator.
Context {V : Type} `{Lib : Library V} `{CM : ClaimsMatcher V} `{KM : KeyManager}.

Definition getJwksUriFromDiscoveryUri
    (httpClient : option HttpClient) (discoveryUri : string) (fetchTimeout : Duration)
  : M V string :=
  let* JwksUri := call (fetchDiscoveryData httpClient discoveryUri fetchTimeout) (fun _ => []) in
  if String.eqb JwksUri "" then throw (Errorf "JwksUri is empty" [])
  else ret JwksUri.

Definition loadJwks : M V unit :=
  let* h := getHandler in
  let* _ :=
    if String.eqb (jwksUri h) "" then
      let* jwksUri :=
        wrapError "unable to fetch jwksUri from discoveryUri (%s): %w" [discoveryUri h]
          (getJwksUriFromDiscoveryUri (httpClient h) (discoveryUri h) (5 * time.Second)) in
      modifyHandler (set_jwksUri jwksUri)
    else ret tt in
  let* h := getHandler in
  let* keyHandler :=
    wrapError "unable to initialize keyHandler: %w" []
      (call (newKeyHandler (httpClient h) (jwksUri h) (jwksFetchTimeout h) (jwksRateLimit h)
               (disableKeyID h))
            (fun r => [CallNewKeyHandler r])) in
  modifyHandler (set_keyHandler (Some keyHandler)).

Definition NewHandler_init (opts : Options V) : handler V :=
  mkHandler (Issuer opts) (DiscoveryUri opts) (JwksUri opts) (JwksFetchTimeout opts)
    (JwksRateLimit opts) "" (AllowedTokenDrift opts) (RequiredAudience opts)
    (RequiredTokenType opts) (RequiredClaims opts) (DisableKeyID opts) (HttpClient_ opts) None.

Definition NewHandler_body (opts : Options V) : M V unit :=
  let* h := getHandler in
  if String.eqb (issuer h) "" then throw (Errorf "issuer is empty" []) else
  let* _ :=
    if String.eqb (discoveryUri h) ""
    then modifyHandler (set_discoveryUri (GetDiscoveryUriFromIssuer (issuer h)))
    else ret tt in
  let* _ :=
    if Z.eqb (jwksFetchTimeout h) 0
    then modifyHandler (set_jwksFetchTimeout (5 * time.Second))
    else ret tt in
  let* _ :=
    if Z.eqb (jwksRateLimit h) 0
    then modifyHandler (set_jwksRateLimit 1)
    else ret tt in
  let* _ :=
    if negb (String.eqb (FallbackSignatureAlgorithm opts) "") then
      let* alg := wrapError "FallbackSignatureAlgorithm not accepted: %w" []
                    (lift (getSignatureAlgorithmFromString (FallbackSignatureAlgorithm opts))) in
      modifyHandler (set_fallbackSignatureAlgorithm alg)
    else ret tt in
  let* _ :=
    if Z.eqb (allowedTokenDrift h) 0
    then modifyHandler (set_allowedTokenDrift (10 * time.Second))
    else ret tt in
  let* _ :=
    match httpClient h with
    | None => modifyHandler (set_httpClient (Some DefaultClient))
    | Some _ => ret tt
    end in
  if negb (LazyLoadJwks opts) then wrapError "unable to load jwks: %w" [] loadJwks
  else ret tt.

(** [NewHandler(opts)]: the new handler, or the error; and the world it
    leaves. *)
Definition NewHandler (opts : Options V) (w : World) : World * outcome (handler V) :=
  match NewHandler_body opts (mkPState (NewHandler_init opts) w []) with
  | (st, Ok _) => (st_world st, Ok (st_handler st))
  | (st, Err e) => (st_world st, Err e)
  | (st, Panic) => (st_world st, Panic)
  end.

Definition SetIssuer (issuer : string) : M V unit :=
  modifyHandler (fun h =>
    mkHandler issuer (discoveryUri h) (jwksUri h) (jwksFetchTimeout h) (jwksRateLimit h)
      (fallbackSignatureAlgorithm h) (allowedTokenDrift h) (requiredAudience h)
      (requiredTokenType h) (requiredClaims h) (disableKeyID h) (httpClient h) (keyHandler h)).

Definition SetDiscoveryUri (discoveryUri : string) : M V unit :=
  modifyHandler (set_discoveryUri discoveryUri).

(** [h.keyHandler.getKey(ctx, keyID)] *)
Definition keyHandler_getKey (keyID : string) : M V Key :=
  let* h := getHandler in
  match keyHandler h with
  | None => fun st => (st, Panic)
  | Some p => call (getKey p keyID) (fun r => [CallGetKey keyID r])
  end.

(** [h.keyHandler.waitForUpdateKeySetAndGetKey(ctx)] *)
Definition keyHandler_waitForUpdateKeySetAndGetKey : M V Key :=
  let* h := getHandler in
  match keyHandler h with
  | None => fun st => (st, Panic)
  | Some p => call (waitForUpdateKeySetAndGetKey p) (fun r => [CallWaitForUpdateKeySetAndGetKey r])
  end.

(** [getAndValidateTokenFromString], logged. *)
Definition verify (tokenString : string) (key : Key) (alg : SignatureAlgorithm) : M V Token :=
  call (fun w => (w, getAndValidateTokenFromString tokenString key alg))
       (fun r => [CallVerify key alg r]).

Definition ParseToken (tokenString : string) : M V Token :=
  let* h := getHandler in
  let* _ :=
    match keyHandler h with
    | None => wrapError "unable to load jwks: %w" [] loadJwks
    | Some _ => ret tt
    end in
  let* h := getHandler in
  let tokenTypeValid := isTokenTypeValid (requiredTokenType h) tokenString in
  if negb tokenTypeValid then throw (Errorf "token type %q required" [requiredTokenType h]) else
  let* keyID :=
    if negb (disableKeyID h) then lift (getKeyIDFromTokenString tokenString)
    else ret "" in
  let* key := wrapError "unable to get public key: %w" [] (keyHandler_getKey keyID) in
  let* alg := lift (getSignatureAlgorithm (key_KeyType key) (key_Algorithm key)
                      (fallbackSignatureAlgorithm h)) in
  let* r := try (verify tokenString key alg) in
  let* token :=
    match r with
    | inr token => ret token
    | inl err =>
        if disableKeyID h && errors_Is_errSignatureVerification err then
          let* updatedKey := keyHandler_waitForUpdateKeySetAndGetKey in
          let* alg := lift (getSignatureAlgorithm (key_KeyType key) (key_Algorithm key)
                              (fallbackSignatureAlgorithm h)) in
          verify tokenString updatedKey alg
        else throw err
    end in
  let* t := now in
  let validExpiration := isTokenExpirationValid t (tok_Expiration token) (allowedTokenDrift h) in
  if negb validExpiration then throw (Errorf "token has expired: %s" []) else
  let validIssuer := isTokenIssuerValid (issuer h) (tok_Issuer token) in
  if negb validIssuer
  then throw (Errorf "required issuer %q was not found, received: %s" [issuer h; tok_Issuer token])
  else
  let validAudience := isTokenAudienceValid (requiredAudience h) (tok_Audience token) in
  if negb validAudience
  then throw (Errorf "required audience %q was not found, received: %v"
                (requiredAudience h :: tok_Audience token))
  else
  let* _ :=
    match requiredClaims h with
    | Some required =>
        let* tokenClaims :=
          match Token_AsMap token with
          | inl msg => throw (ErrorfW "unable to get token claims: %w" [] (ExternalError msg))
          | inr m => ret m
          end in
        match isRequiredClaimsValid required tokenClaims with
        | Some err => throw (ErrorfW "unable to validate required claims: %w" [] err)
        | None => ret tt
        end
    | None => ret tt
    end in
  ret token.

End Validator.

(** ** The key manager

    The implementation of [keyHandler] is not among the sources (its
    tests are); this model follows sections 3 and 4.3 of the
    specification. *)

Module KeyHandler.

(** Modelled from the spec: a refresh request of the key manager
    ([keyUpdate] is absent from the sources); it carries the
    [updateCount] read when it was enqueued. *)
Record Request : Type := mkRequest {
  req_id : nat;
  req_entry : Z
}.

(** Modelled from the spec: the state of the key manager (the struct
    [keyHandler] is absent from the sources): the installed key set, the
    update count, the rate limit, the time of the last successful refresh,
    the mode flag, the FIFO of pending requests, the batch being served,
    and the responses attached to requests. *)
Record keyHandler : Type := mkKeyHandler {
  jwksUri : string;
  fetchTimeout : Duration;
  rateLimit : Z;
  disableKeyID : bool;
  keySet : list Key;
  keyUpdateCount : Z;
  lastRefreshAt : Time;
  queue : list Request;
  inflight : option (list Request);
  responses : gmap nat (error + list Key)
}.

(** Modelled from the spec: field updates of the absent [keyHandler]. *)
Definition install (ks : list Key) (t : Time) (kh : keyHandler) : keyHandler :=
  mkKeyHandler (jwksUri kh) (fetchTimeout kh) (rateLimit kh) (disableKeyID kh)
    ks (keyUpdateCount kh + 1) t (queue kh) (inflight kh) (responses kh).

(** Modelled from the spec: assignment to the pending queue and the
    in-flight batch of the absent [keyHandler]. *)
Definition set_pending (q : list Request) (b : option (list Request)) (kh : keyHandler) : keyHandler :=
  mkKeyHandler (jwksUri kh) (fetchTimeout kh) (rateLimit kh) (disableKeyID kh)
    (keySet kh) (keyUpdateCount kh) (lastRefreshAt kh) q b (responses kh).

(** Modelled from the spec: attaching a response to every request of a
    batch (responding is part of the absent refresher). *)
Definition respond (batch : list Request) (r : error + list Key) (kh : keyHandler) : keyHandler :=
  mkKeyHandler (jwksUri kh) (fetchTimeout kh) (rateLimit kh) (disableKeyID kh)
    (keySet kh) (keyUpdateCount kh) (lastRefreshAt kh) (queue kh) (inflight kh)
    (foldr (fun rq m => <[req_id rq := r]> m) (responses kh) batch).

(** Modelled from the spec: [updateKeySet] (absent from the sources),
    steps 3 to 5 of the refresh protocol on the result [fetched] of the
    fetch: a failed fetch changes nothing; in unkeyed mode a key set
    without exactly one key is refused and not installed; otherwise the
    new set is installed, [updateCount] is incremented and
    [lastRefreshAt] is set to [now]. *)
Definition updateKeySet (fetched : error + list Key) (now : Time) (kh : keyHandler)
  : keyHandler * (error + list Key) :=
  match fetched with
  | inl err => (kh, inl (ErrorfW "unable to fetch keys: %w" [jwksUri kh] err))
  | inr ks =>
      if disableKeyID kh && negb (Nat.eqb (length ks) 1)
      then (kh, inl (Errorf "keyID is disabled, but received a keySet with more than one key" []))
      else (install ks now kh, inr ks)
  end.

(** Modelled from the spec: step 1 of the refresh protocol (the rate-limit
    gate of the absent refresher): the instant at which the fetch may
    start, [lastRefreshAt + 1/rateLimit] if that is still ahead. *)
Definition gate (now : Time) (kh : keyHandler) : Time :=
  Z.max now (lastRefreshAt kh + time.Second / rateLimit kh).

(** Modelled from the spec: what can happen to the key manager: a caller
    of [waitForUpdateKeySetAndGetKeySet] enqueues its request; the
    refresher takes the pending requests as its batch and starts the
    fetch; the fetch ends with a result. *)
Inductive Event : Type :=
| Arrive (id : nat)
| BeginRefresh
| FinishRefresh (fetched : error + list Key) (now : Time).

(** Modelled from the spec: one step of the refresh protocol (the
    refresher is absent from the sources).  Requests arriving while a
    batch is in flight wait for the next batch; the refresher serves one
    batch at a time and idles on an empty queue. *)
Definition step (kh : keyHandler) (ev : Event) : keyHandler :=
  match ev with
  | Arrive id => set_pending (queue kh ++ [mkRequest id (keyUpdateCount kh)]) (inflight kh) kh
  | BeginRefresh =>
      match inflight kh, queue kh with
      | None, _ :: _ => set_pending [] (Some (queue kh)) kh
      | _, _ => kh
      end
  | FinishRefresh fetched now =>
      match inflight kh with
      | None => kh
      | Some batch =>
          let (kh', r) := updateKeySet fetched now kh in
          respond batch r (set_pending (queue kh') None kh')
      end
  end.

(** Modelled from the spec: the requests enqueued by callers [ids] while
    the update count is [count]. *)
Definition requestsOf (count : Z) (ids : list nat) : list Request :=
  map (fun id => mkRequest id count) ids.

(** Modelled from the spec: a run of the refresh protocol. *)
Definition run (evs : list Event) (kh : keyHandler) : keyHandler :=
  fold_left step evs kh.

End KeyHandler.

(** ** A world for the key manager model *)

Module ModelWorld.
Import KeyHandler.

(** Modelled from the spec: the world of the key manager model: the clock,
    what the JWKS endpoint (component A) and the discovery endpoint
    (component B) answer for a URI, the key managers by address, and a
    supply of request identifiers. *)
Record World : Type := mkWorld {
  clock : Time;
  jwksEndpoint : string -> error + list Key;
  discoveryEndpoint : string -> error + string;
  managers : list keyHandler;
  nextRequest : nat
}.

(** Modelled from the spec: storing a key manager at its address. *)
Definition store (p : keyHandlerPtr) (kh : keyHandler) (t : Time) (w : World) : World :=
  mkWorld t (jwksEndpoint w) (discoveryEndpoint w) (<[p := kh]> (managers w)) (S (nextRequest w)).

(** Modelled from the spec: one caller forcing a refresh with nobody else
    around: it enqueues its request, the refresher passes the rate-limit
    gate, fetches, and responds. *)
Definition forceRefresh (kh : keyHandler) (w : World) : keyHandler * Time * (error + list Key) :=
  let id := nextRequest w in
  let t := gate (clock w) kh in
  let kh' := run [Arrive id; BeginRefresh; FinishRefresh (jwksEndpoint w (jwksUri kh)) t] kh in
  match responses kh' !! id with
  | Some r => (kh', t, r)
  | None => (kh', t, inl (Errorf "no response" []))
  end.

(** Modelled from the spec: [waitForUpdateKeySetAndGetKeySet] of the
    absent key manager, called alone. *)
Definition waitForUpdateKeySetAndGetKeySet (p : keyHandlerPtr) (w : World)
  : World * (error + list Key) :=
  match managers w !! p with
  | None => (w, inl (Errorf "invalid key manager" []))
  | Some kh =>
      let '(kh', t, r) := forceRefresh kh w in
      (store p kh' t w, r)
  end.

(** Modelled from the spec: [waitForUpdateKeySetAndGetKey] of the absent
    key manager: force a refresh and return the key at position 0 of the
    new set. *)
Definition waitForUpdateKeySetAndGetKey (p : keyHandlerPtr) (w : World)
  : World * (error + Key) :=
  match waitForUpdateKeySetAndGetKeySet p w with
  | (w', inl err) => (w', inl err)
  | (w', inr []) => (w', inl (Errorf "no key in key set" []))
  | (w', inr (k :: _)) => (w', inr k)
  end.

(** Modelled from the spec: the scan of a key set for a key identifier. *)
Definition lookupKeyID (keyID : string) (ks : list Key) : option Key :=
  find (fun k => String.eqb (key_KeyID k) keyID) ks.

(** Modelled from the spec: [getKey] of the absent key manager.  Unkeyed
    mode: the single key of the current set.  Keyed mode: the fast path
    scans the current set; on a miss one refresh is forced and the set is
    scanned again. *)
Definition getKey (p : keyHandlerPtr) (keyID : string) (w : World) : World * (error + Key) :=
  match managers w !! p with
  | None => (w, inl (Errorf "invalid key manager" []))
  | Some kh =>
      if disableKeyID kh then
        match keySet kh with
        | [k] => (w, inr k)
        | _ => (w, inl (Errorf "key set does not hold exactly one key" []))
        end
      else
        match lookupKeyID keyID (keySet kh) with
        | Some k => (w, inr k)
        | None =>
            match waitForUpdateKeySetAndGetKeySet p w with
            | (w', inl err) => (w', inl err)
            | (w', inr ks) =>
                match lookupKeyID keyID ks with
                | Some k => (w', inr k)
                | None => (w', inl (Errorf "key not found" [keyID]))
                end
            end
        end
  end.

(** Modelled from the spec: [newKeyHandler] of the absent key manager: one
    synchronous initial refresh through the same path; on failure no
    manager is created. *)
Definition newKeyHandler (httpClient : option HttpClient) (jwksUri : string)
    (fetchTimeout : Duration) (rateLimit : Z) (disableKeyID : bool) (w : World)
  : World * (error + keyHandlerPtr) :=
  let kh := mkKeyHandler jwksUri fetchTimeout rateLimit disableKeyID [] 0 0 [] None ∅ in
  match forceRefresh kh w with
  | (_, _, inl err) => (w, inl err)
  | (kh', t, inr _) =>
      (mkWorld t (jwksEndpoint w) (discoveryEndpoint w) (managers w ++ [kh']) (S (nextRequest w)),
       inr (length (managers w)))
  end.

(** Modelled from the spec: the discovery client (component B) as the
    validator calls it. *)
Definition fetchDiscoveryData (httpClient : option HttpClient) (discoveryUri : string)
    (fetchTimeout : Duration) (w : World) : World * (error + string) :=
  (w, discoveryEndpoint w discoveryUri).

End ModelWorld.

#[export] Instance ModelKeyManager : KeyManager := {|
  World := ModelWorld.World;
  time_Now := ModelWorld.clock;
  fetchDiscoveryData := ModelWorld.fetchDiscoveryData;
  newKeyHandler := ModelWorld.newKeyHandler;
  getKey := ModelWorld.getKey;
  waitForUpdateKeySetAndGetKey := ModelWorld.waitForUpdateKeySetAndGetKey
|}.

(** ** The claims matcher of the specification *)

(** Modelled from the spec: the values of claims (section 4.4: scalars,
    sequences, mappings); the Go values and their conversion by the absent
    [getCtyValues] are not among the sources. *)
Inductive Claim : Type :=
| CString (s : string)
| CNumber (n : Z)
| CBool (b : bool)
| CSeq (l : list Claim)
| CMap (m : list (string * Claim)).

(** Modelled from the spec: lookup in a mapping claim. *)
Fixpoint lookupClaim (k : string) (m : list (string * Claim)) : option Claim :=
  match m with
  | [] => None
  | (k', v) :: rest => if String.eqb k k' then Some v else lookupClaim k rest
  end.

(** Modelled from the spec: [match(required, observed)] of section 4.4
    (the absent [isCtyValueValid]): structural containment. *)
Fixpoint matchClaim (required observed : Claim) {struct required} : bool :=
  match required, observed with
  | CString a, CString b => String.eqb a b
  | CNumber a, CNumber b => Z.eqb a b
  | CBool a, CBool b => Bool.eqb a b
  | CSeq rs, CSeq os => forallb (fun r => existsb (matchClaim r) os) rs
  | CMap rm, CMap om =>
      forallb (fun kv => match lookupClaim (fst kv) om with
                         | Some o => matchClaim (snd kv) o
                         | None => false
                         end) rm
  | _, _ => false
  end.

#[export] Instance SpecClaimsMatcher : ClaimsMatcher Claim := {|
  ctyValue := Claim;
  getCtyValues := fun a b => inr (a, b);
  isCtyValueValid := fun required received =>
    if matchClaim required received then None
    else Some (Errorf "values do not match" [])
|}.

(** ** An issuer for the examples

    An instance of the library interface in which the issued tokens are
    listed in a table: a token string verifies against a key and an
    algorithm exactly when they are the ones it was signed with.  A
    signature that does not verify gives the message of jwx for the type
    of the key: that of [crypto/rsa] for an RSA key, which does not
    contain the text of [errSignatureVerification], and that of the ECDSA
    verifier for an EC key, which does. *)

Module Fixture.

Record Issued : Type := mkIssued {
  iss_string : string;
  iss_headers : Headers;
  iss_signer : Z;
  iss_alg : SignatureAlgorithm;
  iss_token : Token;
  iss_claims : list (string * Claim)
}.

Fixpoint findIssued (s : string) (table : list Issued) : option Issued :=
  match table with
  | [] => None
  | i :: rest => if String.eqb (iss_string i) s then Some i else findIssued s rest
  end.

Fixpoint findClaims (id : Z) (table : list Issued) : option (list (string * Claim)) :=
  match table with
  | [] => None
  | i :: rest => if Z.eqb (tok_id (iss_token i)) id then Some (iss_claims i) else findClaims id rest
  end.

Definition verificationFailure (key : Key) : string :=
  if String.eqb (key_KeyType key) jwa.EC
  then "failed to verify jws signature: failed to verify message: failed to verify signature using ecdsa"
  else "failed to verify jws signature: failed to verify message: crypto/rsa: verification error".

Definition library (table : list Issued) : Library Claim := {|
  allSignatureAlgorithms :=
    ["ES256"; "ES256K"; "ES384"; "ES512"; "EdDSA"; "HS256"; "HS384"; "HS512"; "none";
     "PS256"; "PS384"; "PS512"; "RS256"; "RS384"; "RS512"];
  jws_ParseString := fun s =>
    match findIssued s table with
    | Some i => inr [iss_headers i]
    | None => inl "invalid compact serialization format"
    end;
  jwt_ParseString := fun s alg key =>
    match findIssued s table with
    | Some i =>
        if Z.eqb (key_material key) (iss_signer i) && String.eqb alg (iss_alg i)
        then inr (iss_token i)
        else inl (verificationFailure key)
    | None => inl "failed to parse token: invalid compact serialization format"
    end;
  Token_AsMap := fun t =>
    match findClaims (tok_id t) table with
    | Some m => inr (list_to_map m)
    | None => inl "unknown token"
    end
|}.

Definition issuer : string := "https://issuer/".

Definition K1 : Key := mkKey jwa.RSA "RS256" "" 1.
Definition K2 : Key := mkKey jwa.RSA "RS512" "" 2.
Definition K3 : Key := mkKey jwa.RSA "" "kid3" 3.
Definition K4 : Key := mkKey jwa.RSA "RS256" "" 4.

(** Keys on elliptic curves: [E1] and [E3] declare ES256, [E2] declares
    ES384. *)
Definition E1 : Key := mkKey jwa.EC "ES256" "" 11.
Definition E2 : Key := mkKey jwa.EC "ES384" "" 12.
Definition E3 : Key := mkKey jwa.EC "ES256" "" 13.

(** Tokens signed with [K1], [K2], [K3] and [K4], good until instant
    [60 s], and one signed with a key that is not published. *)
Definition tokenA : Issued :=
  mkIssued "tokenA" (mkHeaders "" "JWT" "RS256") 1 "RS256"
    (mkToken (60 * time.Second) issuer ["a"] 1) [("azp", CString "c")].

Definition tokenB : Issued :=
  mkIssued "tokenB" (mkHeaders "" "JWT" "RS512") 2 "RS512"
    (mkToken (60 * time.Second) issuer ["a"] 2) [("azp", CString "c")].

Definition tokenC : Issued :=
  mkIssued "tokenC" (mkHeaders "kid3" "JWT" "RS256") 3 "RS256"
    (mkToken (60 * time.Second) issuer ["a"] 3) [("azp", CString "d")].

Definition tokenD : Issued :=
  mkIssued "tokenD" (mkHeaders "" "JWT" "RS256") 4 "RS256"
    (mkToken (60 * time.Second) issuer ["a"] 5) [("azp", CString "c")].

Definition tokenX : Issued :=
  mkIssued "tokenX" (mkHeaders "kid3" "JWT" "RS256") 99 "RS256"
    (mkToken (60 * time.Second) issuer ["a"] 4) [].

(** Tokens signed with [E1], with [E2] and ES384, and with [E3]. *)
Definition tokenE1 : Issued :=
  mkIssued "tokenE1" (mkHeaders "" "JWT" "ES256") 11 "ES256"
    (mkToken (60 * time.Second) issuer ["a"] 6) [("azp", CString "c")].

Definition tokenE2 : Issued :=
  mkIssued "tokenE2" (mkHeaders "" "JWT" "ES384") 12 "ES384"
    (mkToken (60 * time.Second) issuer ["a"] 7) [("azp", CString "c")].

Definition tokenE3 : Issued :=
  mkIssued "tokenE3" (mkHeaders "" "JWT" "ES256") 13 "ES256"
    (mkToken (60 * time.Second) issuer ["a"] 8) [("azp", CString "c")].

#[export] Instance lib : Library Claim :=
  library [tokenA; tokenB; tokenC; tokenD; tokenX; tokenE1; tokenE2; tokenE3].

Definition jwksUri : string := "https://issuer/jwks".

(** An unkeyed key manager that has installed [K1] at instant [1 s]. *)
Definition unkeyedManager : KeyHandler.keyHandler :=
  KeyHandler.mkKeyHandler jwksUri (5 * time.Second) 1 true [K1] 1 time.Second [] None ∅.

(** An unkeyed key manager that has installed [E1] at instant [1 s]. *)
Definition unkeyedECManager : KeyHandler.keyHandler :=
  KeyHandler.mkKeyHandler jwksUri (5 * time.Second) 1 true [E1] 1 time.Second [] None ∅.

(** A keyed key manager that has installed [K3]. *)
Definition keyedManager : KeyHandler.keyHandler :=
  KeyHandler.mkKeyHandler jwksUri (5 * time.Second) 1 false [K3] 1 time.Second [] None ∅.

(** The world at instant [10 s], with one key manager, in which the JWKS
    endpoint serves [served]. *)
Definition world (kh : KeyHandler.keyHandler) (served : error + list Key) : ModelWorld.World :=
  ModelWorld.mkWorld (10 * time.Second)
    (fun uri => if String.eqb uri jwksUri then served
                else inl (ExternalError "no such host"))
    (fun uri => if String.eqb uri (GetDiscoveryUriFromIssuer issuer) then inr jwksUri
                else inl (ExternalError "no such host"))
    [kh] 0.

(** The world before any key manager exists. *)
Definition emptyWorld (served : error + list Key) : ModelWorld.World :=
  ModelWorld.mkWorld (10 * time.Second)
    (fun uri => if String.eqb uri jwksUri then served
                else inl (ExternalError "no such host"))
    (fun uri => if String.eqb uri (GetDiscoveryUriFromIssuer issuer) then inr jwksUri
                else inl (ExternalError "no such host"))
    [] 0.

Definition policy (unkeyed : bool) (kh : option keyHandlerPtr) : handler Claim :=
  mkHandler issuer (GetDiscoveryUriFromIssuer issuer) jwksUri (5 * time.Second) 1 ""
    (10 * time.Second) "a" "" (Some [("azp", CString "c")]) unkeyed (Some DefaultClient) kh.

Definition options (lazy : bool) : Options Claim :=
  mkOptions issuer "" "" 0 0 "" 0 lazy "" "a" (Some [("azp", CString "c")]) true None.

End Fixture.

(** ** More options and handlers for the examples *)

Module Examples.

(** Options without an issuer. *)
Definition noIssuer : Options Claim :=
  mkOptions "" "" "" 0 0 "" 0 false "" "a" None true None.

(** Options whose fallback algorithm is not a signature algorithm. *)
Definition badFallback : Options Claim :=
  mkOptions Fixture.issuer "" "" 0 0 "XS1" 0 false "" "a" None true None.

(** A handler that requires the token type [at+jwt]. *)
Definition typedPolicy : handler Claim :=
  mkHandler Fixture.issuer (GetDiscoveryUriFromIssuer Fixture.issuer) Fixture.jwksUri
    (5 * time.Second) 1 "" (10 * time.Second) "a" "at+jwt" None true
    (Some DefaultClient) (Some 0%nat).

(** A handler for another issuer. *)
Definition otherIssuerPolicy : handler Claim :=
  mkHandler "https://other/" (GetDiscoveryUriFromIssuer "https://other/") Fixture.jwksUri
    (5 * time.Second) 1 "" (10 * time.Second) "a" "" None true
    (Some DefaultClient) (Some 0%nat).

End Examples.

(** ** Running [ParseToken] *)

Section Run.
Context {V : Type} `{Lib : Library V} `{CM : ClaimsMatcher V} `{KM : KeyManager}.

(** One call [h.ParseToken(ctx, tokenString)] in world [w], with an empty
    log. *)
Definition runParseToken (h : handler V) (w : World) (tokenString : string)
  : PState V * outcome Token :=
  ParseToken tokenString (mkPState h w []).

(** [st1] is the state in which [ParseToken], called in [st], goes on
    after its first lines: [st] itself when the handler has a key
    manager, else the state that a successful [loadJwks] leaves. *)
Definition afterLoad (st st1 : PState V) : Prop :=
  match keyHandler (st_handler st) with
  | Some _ => st1 = st
  | None => loadJwks st = (st1, Ok tt)
  end.

Definition isRefresh (c : Call) : bool :=
  match c with CallWaitForUpdateKeySetAndGetKey _ => true | _ => false end.

Definition isVerify (c : Call) : bool :=
  match c with CallVerify _ _ _ => true | _ => false end.

(** The forced refreshes and the signature checks of a log, in order. *)
Definition attempts (log : list Call) : list Call :=
  List.filter (fun c => isRefresh c || isVerify c) log.


Definition isNewKeyHandler (c : Call) : bool :=
  match c with CallNewKeyHandler _ => true | _ => false end.

Definition isGetKey (c : Call) : bool :=
  match c with CallGetKey _ _ => true | _ => false end.

(** The constructions of a key manager and the key lookups of a log, in
    order. *)
Definition loads (log : list Call) : list Call := List.filter isNewKeyHandler log.

Definition lookups (log : list Call) : list Call := List.filter isGetKey log.

(** The forced refreshes and signature checks that one call of
    [ParseToken] can make, with what it then returns: no check; one
    check and no refresh; in unkeyed mode, a check failing with the
    sentinel followed by a refresh that fails; or followed by a refresh
    and one more check against the key that the refresh returned. *)
Inductive AttemptShape (h : handler V) (tokenString : string) (result : outcome Token)
  : list Call -> Prop :=
| NoAttempt : AttemptShape h tokenString result []
| OneAttempt (key : Key) (alg : SignatureAlgorithm) (r : error + Token) :
    getSignatureAlgorithm (key_KeyType key) (key_Algorithm key) (fallbackSignatureAlgorithm h)
      = inr alg ->
    getAndValidateTokenFromString tokenString key alg = r ->
    (forall e, r = inl e ->
       disableKeyID h && errors_Is_errSignatureVerification e = false /\ result = Err e) ->
    AttemptShape h tokenString result [CallVerify key alg r]
| RefreshFailed (key : Key) (alg : SignatureAlgorithm) (e : error) :
    disableKeyID h = true ->
    getAndValidateTokenFromString tokenString key alg = inl errSignatureVerification ->
    result = Err e ->
    AttemptShape h tokenString result
      [CallVerify key alg (inl errSignatureVerification);
       CallWaitForUpdateKeySetAndGetKey (inl e)]
| Retried (key updatedKey : Key) (alg : SignatureAlgorithm) (r : error + Token) :
    disableKeyID h = true ->
    getSignatureAlgorithm (key_KeyType key) (key_Algorithm key) (fallbackSignatureAlgorithm h)
      = inr alg ->
    getAndValidateTokenFromString tokenString key alg = inl errSignatureVerification ->
    getAndValidateTokenFromString tokenString updatedKey alg = r ->
    (forall e, r = inl e -> result = Err e) ->
    AttemptShape h tokenString result
      [CallVerify key alg (inl errSignatureVerification);
       CallWaitForUpdateKeySetAndGetKey (inr updatedKey);
       CallVerify updatedKey alg r].

End Run.

(** ** Reading the required-claims check *)

Section ClaimsReading.
Context {V : Type} `{CM : ClaimsMatcher V}.

(** The observed value contains the required value: the conversion of
    the pair succeeds and the converted values are accepted. *)
Definition claimContained (requiredValue tokenValue : V) : Prop :=
  exists required received,
    getCtyValues requiredValue tokenValue = inr (required, received) /\
    isCtyValueValid required received = None.

(** The required entry is met by the token claims. *)
Definition entryValid (tokenClaims : gmap string V) (kv : string * V) : Prop :=
  exists tokenValue, tokenClaims !! fst kv = Some tokenValue /\ claimContained (snd kv) tokenValue.



End ClaimsReading.

(** ** Case analysis of monadic code *)

Ltac unfold_monad :=
  unfold getJwksUriFromDiscoveryUri, keyHandler_getKey,
    keyHandler_waitForUpdateKeySetAndGetKey, verify, SetIssuer, SetDiscoveryUri,
    wrapError, try, lift, bind, ret, throw, getHandler, modifyHandler, now, call,
    outcome_of_sum in *.

(** Splits on a scrutinee of hypothesis [H] that holds no other case
    analysis and is not under a binder. *)
Ltac split_in H :=
  match type of H with
  | context [match ?x with _ => _ end] =>
      lazymatch x with
      | context [match _ with _ => _ end] => fail
      | _ => first [ is_var x; destruct x | let E := fresh "E" in destruct x eqn:E ]
      end
  end.

Ltac explore H :=
  repeat (cbn [fst snd st_handler st_world st_calls] in H;
          first [ discriminate H | split_in H ]).

(** The same on the goal. *)
Ltac split_goal :=
  match goal with
  | |- context [match ?x with _ => _ end] =>
      lazymatch x with
      | context [match _ with _ => _ end] => fail
      | _ => first [ is_var x; destruct x | let E := fresh "E" in destruct x eqn:E ]
      end
  end.

(** Reduces the fields of states built by the monad. *)
Ltac run_state := cbv beta iota delta [st_handler st_world st_calls fst snd].

Ltac norm_bool :=
  repeat match goal with
         | H : negb _ = true |- _ => apply negb_true_iff in H
         | H : negb _ = false |- _ => apply negb_false_iff in H
         | H : _ && _ = true |- _ => apply andb_true_iff in H as [? ?]
         end.

(** Reduces the fields of handlers built by assignments, and of states. *)
Ltac handler_simpl :=
  cbn [set_discoveryUri set_jwksUri set_jwksFetchTimeout set_jwksRateLimit
       set_fallbackSignatureAlgorithm set_allowedTokenDrift set_httpClient set_keyHandler
       issuer discoveryUri jwksUri jwksFetchTimeout jwksRateLimit fallbackSignatureAlgorithm
       allowedTokenDrift requiredAudience requiredTokenType requiredClaims disableKeyID
       httpClient keyHandler st_handler st_world st_calls fst snd] in *.

Ltac eqb_props :=
  repeat match goal with
         | E : String.eqb _ _ = true |- _ => apply String.eqb_eq in E
         | E : String.eqb _ _ = false |- _ => apply String.eqb_neq in E
         | E : Z.eqb _ _ = true |- _ => apply Z.eqb_eq in E
         | E : Z.eqb _ _ = false |- _ => apply Z.eqb_neq in E
         end.

(** * Properties *)

(** ** Strings *)

Lemma eqb_empty_false (s : string) : s <> "" -> String.eqb s "" = false.
Proof. intros Hs. now apply String.eqb_neq. Qed.

(** ** The issuer gate *)

(** C5: the issuer gate accepts exactly when the configured issuer is not
    empty and the token's issuer equals it; with an empty configured
    issuer every token is rejected, also one whose issuer is empty. *)
Theorem isTokenIssuerValid_iff (requiredIssuer tokenIssuer : string) :
  (isTokenIssuerValid requiredIssuer tokenIssuer = true <->
     requiredIssuer <> "" /\ tokenIssuer = requiredIssuer) /\
  isTokenIssuerValid "" tokenIssuer = false /\
  isTokenIssuerValid "" "" = false.
Proof.
  split; [| split; reflexivity].
  unfold isTokenIssuerValid.
  destruct (String.eqb_spec requiredIssuer "") as [-> | Hne].
  - split; [discriminate | intros [Hne _]; now elim Hne].
  - rewrite String.eqb_eq. tauto.
Qed.

(** ** The signature-algorithm resolver *)

Section Resolver.
Context {V : Type} `{Lib : Library V}.

Lemma Accept_known (s : string) :
  In s allSignatureAlgorithms -> getSignatureAlgorithmFromString s = inr s.
Proof.
  intros Hin. unfold getSignatureAlgorithmFromString, SignatureAlgorithm_Accept.
  replace (existsb (String.eqb s) allSignatureAlgorithms) with true; [reflexivity |].
  symmetry. apply existsb_exists. exists s. split; [assumption | apply String.eqb_refl].
Qed.

Lemma Accept_unknown (s : string) :
  ~ In s allSignatureAlgorithms -> exists e, getSignatureAlgorithmFromString s = inl e.
Proof.
  intros Hnin. unfold getSignatureAlgorithmFromString, SignatureAlgorithm_Accept.
  destruct (existsb (String.eqb s) allSignatureAlgorithms) eqn:E.
  - apply existsb_exists in E as (x & Hx & Heq). apply String.eqb_eq in Heq. subst x.
    now elim Hnin.
  - eauto.
Qed.

(** C6: a declared algorithm is parsed and returned, whatever the
    fallback, and is an error when it is not a known algorithm; without a
    declared algorithm the fallback is returned if there is one; without
    either, RS256 for RSA, ES256 for EC, an error for any other key
    type. *)
Theorem getSignatureAlgorithm_cases (kty : KeyType) (keyAlg : string) (fallbackAlg : SignatureAlgorithm) :
  (keyAlg <> "" ->
     getSignatureAlgorithm kty keyAlg fallbackAlg = getSignatureAlgorithmFromString keyAlg /\
     (In keyAlg allSignatureAlgorithms ->
        getSignatureAlgorithm kty keyAlg fallbackAlg = inr keyAlg) /\
     (~ In keyAlg allSignatureAlgorithms ->
        exists e, getSignatureAlgorithm kty keyAlg fallbackAlg = inl e)) /\
  (keyAlg = "" -> fallbackAlg <> "" ->
     getSignatureAlgorithm kty keyAlg fallbackAlg = inr fallbackAlg) /\
  (keyAlg = "" -> fallbackAlg = "" -> kty = jwa.RSA ->
     getSignatureAlgorithm kty keyAlg fallbackAlg = inr jwa.RS256) /\
  (keyAlg = "" -> fallbackAlg = "" -> kty = jwa.EC ->
     getSignatureAlgorithm kty keyAlg fallbackAlg = inr jwa.ES256) /\
  (keyAlg = "" -> fallbackAlg = "" -> kty <> jwa.RSA -> kty <> jwa.EC ->
     exists e, getSignatureAlgorithm kty keyAlg fallbackAlg = inl e).
Proof.
  unfold getSignatureAlgorithm. repeat split.
  - rewrite (eqb_empty_false keyAlg) by assumption. reflexivity.
  - intros Hin. rewrite (eqb_empty_false keyAlg) by assumption. now apply Accept_known.
  - intros Hnin. rewrite (eqb_empty_false keyAlg) by assumption. now apply Accept_unknown.
  - intros -> Hfb. rewrite (eqb_empty_false fallbackAlg) by assumption. reflexivity.
  - intros -> -> ->. reflexivity.
  - intros -> -> ->. reflexivity.
  - intros -> -> Hrsa Hec. simpl.
    apply String.eqb_neq in Hrsa, Hec. rewrite Hrsa, Hec. eauto.
Qed.

End Resolver.

(** The resolver on the issuer of the examples: a declared unknown
    algorithm is an error even with a fallback. *)
Lemma getSignatureAlgorithm_cases_witness :
  getSignatureAlgorithm (H := Fixture.lib) "RSA" "RS384" "ES512" = inr "RS384" /\
  (exists e, getSignatureAlgorithm (H := Fixture.lib) "RSA" "XS1" "ES512" = inl e) /\
  getSignatureAlgorithm (H := Fixture.lib) "oct" "" "ES512" = inr "ES512" /\
  getSignatureAlgorithm (H := Fixture.lib) "RSA" "" "" = inr "RS256" /\
  getSignatureAlgorithm (H := Fixture.lib) "EC" "" "" = inr "ES256" /\
  (exists e, getSignatureAlgorithm (H := Fixture.lib) "oct" "" "" = inl e).
Proof.
  pose proof (getSignatureAlgorithm_cases (Lib := Fixture.lib) "RSA" "RS384" "ES512")
    as (Hdeclared & _).
  pose proof (getSignatureAlgorithm_cases (Lib := Fixture.lib) "RSA" "XS1" "ES512")
    as (Hunknown & _).
  pose proof (getSignatureAlgorithm_cases (Lib := Fixture.lib) "oct" "" "ES512")
    as (_ & Hfallback & _).
  pose proof (getSignatureAlgorithm_cases (Lib := Fixture.lib) "RSA" "" "")
    as (_ & _ & Hrsa & _).
  pose proof (getSignatureAlgorithm_cases (Lib := Fixture.lib) "EC" "" "")
    as (_ & _ & _ & Hec & _).
  pose proof (getSignatureAlgorithm_cases (Lib := Fixture.lib) "oct" "" "")
    as (_ & _ & _ & _ & Hother).
  split; [| split; [| split; [| split; [| split]]]].
  - apply Hdeclared; [discriminate |]. vm_compute. do 13 right. left. reflexivity.
  - apply Hunknown; [discriminate |]. vm_compute. intros Hin.
    repeat (destruct Hin as [Hin | Hin]; [discriminate Hin |]). exact Hin.
  - apply Hfallback; [reflexivity | discriminate].
  - apply Hrsa; reflexivity.
  - apply Hec; reflexivity.
  - apply Hother; [reflexivity | reflexivity | discriminate | discriminate].
Defined.

(** ** The expiration gate *)

Section Expiration.
Context {V : Type} `{Lib : Library V} `{CM : ClaimsMatcher V} `{KM : KeyManager}.

Lemma isTokenExpirationValid_true (now expiration : Time) (allowedDrift : Duration) :
  isTokenExpirationValid now expiration allowedDrift = true <-> expiration + allowedDrift > now.
Proof.
  unfold isTokenExpirationValid, time.After, time.Add, time.Round0.
  rewrite Z.ltb_lt. lia.
Qed.

Lemma NewHandler_allowedTokenDrift (opts : Options V) (w w' : World) (h : handler V) :
  NewHandler opts w = (w', Ok h) ->
  allowedTokenDrift h =
    if Z.eqb (AllowedTokenDrift opts) 0 then 10 * time.Second else AllowedTokenDrift opts.
Proof.
  intros H. unfold NewHandler, NewHandler_body, loadJwks in H. unfold_monad.
  cbn [NewHandler_init issuer discoveryUri jwksFetchTimeout jwksRateLimit allowedTokenDrift
       httpClient st_handler] in H.
  explore H; inversion H; subst; reflexivity.
Qed.

End Expiration.

Section ExpirationGate.
Context {V : Type} `{Lib : Library V} `{CM : ClaimsMatcher V} `{KM : KeyManager}.

Lemma ParseToken_Ok_expiration (h : handler V) (w : World) (tokenString : string)
    (st' : PState V) (token : Token) :
  runParseToken h w tokenString = (st', Ok token) ->
  isTokenExpirationValid (time_Now (st_world st')) (tok_Expiration token) (allowedTokenDrift h)
  = true.
Proof.
  intros H. unfold runParseToken, ParseToken, loadJwks in H. unfold_monad.
  explore H; inversion H; subst; cbn in *;
    repeat match goal with
           | E : negb _ = false |- _ => apply negb_false_iff in E
           end; assumption.
Qed.

(** C7: the expiration gate rejects exactly when [exp + allowedTokenDrift
    <= now] (the boundary instant is rejected) and accepts exactly when
    [exp + allowedTokenDrift > now]; a drift configured as zero becomes
    10 seconds; and a token returned by [ParseToken] has passed the gate
    with the handler's drift. *)
Theorem expiration_gate :
  (forall (now expiration : Time) (allowedDrift : Duration),
     isTokenExpirationValid now expiration allowedDrift = false <->
     expiration + allowedDrift <= now) /\
  (forall (now expiration : Time) (allowedDrift : Duration),
     isTokenExpirationValid now expiration allowedDrift = true <->
     expiration + allowedDrift > now) /\
  (forall (opts : Options V) (w w' : World) (h : handler V),
     NewHandler opts w = (w', Ok h) ->
     AllowedTokenDrift opts = 0 ->
     allowedTokenDrift h = 10 * time.Second) /\
  (forall (h : handler V) (w : World) (tokenString : string) (st' : PState V) (token : Token),
     runParseToken h w tokenString = (st', Ok token) ->
     tok_Expiration token + allowedTokenDrift h > time_Now (st_world st')).
Proof.
  split; [| split; [| split]].
  - intros now expiration allowedDrift.
    pose proof (isTokenExpirationValid_true now expiration allowedDrift) as Ht.
    destruct (isTokenExpirationValid now expiration allowedDrift).
    + split; [discriminate |]. intros Hle. assert (expiration + allowedDrift > now) by now apply Ht.
      lia.
    + split; [| reflexivity]. intros _.
      destruct (Z_le_gt_dec (expiration + allowedDrift) now) as [Hle | Hgt]; [exact Hle |].
      apply Ht in Hgt. discriminate Hgt.
  - apply isTokenExpirationValid_true.
  - intros opts w w' h Hnew Hzero.
    rewrite (NewHandler_allowedTokenDrift opts w w' h Hnew), Hzero. reflexivity.
  - intros h w tokenString st' token Hrun.
    apply isTokenExpirationValid_true. eapply ParseToken_Ok_expiration. exact Hrun.
Qed.

End ExpirationGate.

(** At instant [10 s] a token expiring at [0 s] is rejected with the
    drift of [10 s] and accepted with one nanosecond more; the handler
    made from options without a drift has a drift of [10 s]. *)
Lemma expiration_gate_witness :
  isTokenExpirationValid (10 * time.Second) 0 (10 * time.Second) = false /\
  isTokenExpirationValid (10 * time.Second) 0 (10 * time.Second + 1) = true /\
  (exists w' h,
     NewHandler (Lib := Fixture.lib) (KM := ModelKeyManager) (Fixture.options true) (Fixture.emptyWorld (inr [Fixture.K1]))
       = (w', Ok h) /\
     allowedTokenDrift h = 10 * time.Second) /\
  (exists st' token,
     runParseToken (Lib := Fixture.lib) (KM := ModelKeyManager) (Fixture.policy true (Some 0%nat))
       (Fixture.world Fixture.unkeyedManager (inr [Fixture.K1])) "tokenA" = (st', Ok token) /\
     tok_Expiration token + 10 * time.Second > time_Now (st_world st')).
Proof.
  pose proof (expiration_gate (Lib := Fixture.lib) (CM := SpecClaimsMatcher) (KM := ModelKeyManager))
    as (Hreject & Haccept & Hdefault & Hparse).
  split; [| split; [| split]].
  - apply Hreject. vm_compute. discriminate.
  - apply Haccept. vm_compute. reflexivity.
  - destruct (NewHandler (Lib := Fixture.lib) (KM := ModelKeyManager) (Fixture.options true)
                (Fixture.emptyWorld (inr [Fixture.K1]))) as [w' o] eqn:Hnew.
    assert (Ho : exists h, o = Ok h).
    { change o with (snd (w', o)). rewrite <- Hnew. vm_compute. eexists. reflexivity. }
    destruct Ho as [h ->]. exists w', h. split; [reflexivity |].
    apply (Hdefault _ _ _ _ Hnew). reflexivity.
  - destruct (runParseToken (Lib := Fixture.lib) (KM := ModelKeyManager)
                (Fixture.policy true (Some 0%nat))
                (Fixture.world Fixture.unkeyedManager (inr [Fixture.K1])) "tokenA")
      as [st' o] eqn:Hrun.
    assert (Ho : o = Ok (Fixture.iss_token Fixture.tokenA)).
    { change o with (snd (st', o)). rewrite <- Hrun. vm_compute. reflexivity. }
    subst o. exists st', (Fixture.iss_token Fixture.tokenA). split; [reflexivity |].
    apply (Hparse _ _ _ _ _ Hrun).
Defined.

(** ** The required-claims check *)

Section RequiredClaims.
Context {V : Type} `{CM : ClaimsMatcher V}.

Lemma entryValid_inv (tokenClaims : gmap string V) (k : string) (v tv : V) :
  entryValid tokenClaims (k, v) ->
  tokenClaims !! k = Some tv ->
  exists r c, getCtyValues v tv = inr (r, c) /\ isCtyValueValid r c = None.
Proof.
  intros (tv' & Hk' & r & c & Hc & Hv) Hk. simpl in Hk', Hc.
  rewrite Hk in Hk'. injection Hk' as <-. eauto.
Qed.

Lemma entryValid_present (tokenClaims : gmap string V) (k : string) (v : V) :
  entryValid tokenClaims (k, v) -> tokenClaims !! k <> None.
Proof. intros (tv' & Hk' & _). simpl in Hk'. congruence. Qed.

Lemma entryValid_intro (tokenClaims : gmap string V) (k : string) (v tv : V) r c :
  tokenClaims !! k = Some tv ->
  getCtyValues v tv = inr (r, c) ->
  isCtyValueValid r c = None ->
  entryValid tokenClaims (k, v).
Proof. intros Hk Hc Hv. exists tv. split; [exact Hk |]. exists r, c. split; assumption. Qed.

Lemma isRequiredClaimsValid_None (required : list (string * V)) (tokenClaims : gmap string V) :
  isRequiredClaimsValid required tokenClaims = None <->
  Forall (entryValid tokenClaims) required.
Proof.
  induction required as [| [k v] rest IH]; simpl.
  - split; [constructor | reflexivity].
  - destruct (tokenClaims !! k) as [tv |] eqn:Hk.
    + destruct (getCtyValues v tv) as [err | [r c]] eqn:Hc.
      * split; [discriminate |]. intros Hall. inversion Hall as [| ? ? Hhd _]; subst.
        destruct (entryValid_inv _ _ _ _ Hhd Hk) as (r & c & Hc' & _). congruence.
      * destruct (isCtyValueValid r c) as [err |] eqn:Hv.
        -- split; [discriminate |]. intros Hall. inversion Hall as [| ? ? Hhd _]; subst.
           destruct (entryValid_inv _ _ _ _ Hhd Hk) as (r' & c' & Hc' & Hv'). congruence.
        -- rewrite IH. split.
           ++ intros Hall. constructor; [| exact Hall]. eapply entryValid_intro; eassumption.
           ++ intros Hall. now inversion Hall.
    + split; [discriminate |]. intros Hall. inversion Hall as [| ? ? Hhd _]; subst.
      now apply entryValid_present in Hhd.
Qed.




End RequiredClaims.

(** With the matcher of the specification, an observed value contains a
    required value exactly when [matchClaim] accepts the pair. *)
Lemma claimContained_matchClaim (requiredValue tokenValue : Claim) :
  claimContained (CM := SpecClaimsMatcher) requiredValue tokenValue <->
  matchClaim requiredValue tokenValue = true.
Proof.
  unfold claimContained. simpl. split.
  - intros (r & c & [= <- <-] & Hv).
    destruct (matchClaim requiredValue tokenValue); [reflexivity | discriminate Hv].
  - intros Hm. exists requiredValue, tokenValue. rewrite Hm. split; reflexivity.
Qed.



(** ** The key manager model *)

Section KeyHandlerModel.
Import KeyHandler.

Lemma run_app (evs1 evs2 : list Event) (kh : keyHandler) :
  run (evs1 ++ evs2) kh = run evs2 (run evs1 kh).
Proof. unfold run. apply fold_left_app. Qed.

Lemma run_arrivals (ids : list nat) (kh : keyHandler) :
  run (map Arrive ids) kh
  = set_pending (queue kh ++ requestsOf (keyUpdateCount kh) ids) (inflight kh) kh.
Proof.
  revert kh. induction ids as [| id ids IH]; intros kh; simpl.
  - rewrite app_nil_r. destruct kh; reflexivity.
  - unfold run in IH. rewrite IH. unfold set_pending; simpl.
    rewrite <- app_assoc. reflexivity.
Qed.

Lemma respond_lookup (batch : list Request) (r : error + list Key) (kh : keyHandler) (id : nat) :
  In id (map req_id batch) -> responses (respond batch r kh) !! id = Some r.
Proof.
  unfold respond; simpl. induction batch as [| rq batch IH]; simpl; [tauto |].
  intros [<- | Hin].
  - apply lookup_insert_eq.
  - destruct (decide (req_id rq = id)) as [<- | Hne].
    + apply lookup_insert_eq.
    + rewrite lookup_insert_ne by exact Hne. auto.
Qed.

Lemma respond_frame (batch : list Request) (r : error + list Key) (kh : keyHandler) :
  keySet (respond batch r kh) = keySet kh /\
  keyUpdateCount (respond batch r kh) = keyUpdateCount kh /\
  queue (respond batch r kh) = queue kh /\
  inflight (respond batch r kh) = inflight kh.
Proof. repeat split. Qed.

Lemma updateKeySet_installs (ks : list Key) (now : Time) (kh : keyHandler) :
  (disableKeyID kh = true -> length ks = 1%nat) ->
  updateKeySet (inr ks) now kh = (install ks now kh, inr ks).
Proof.
  intros Hmode. unfold updateKeySet.
  destruct (disableKeyID kh); simpl; [| reflexivity].
  rewrite Hmode by reflexivity. reflexivity.
Qed.

Lemma updateKeySet_refuses (ks : list Key) (now : Time) (kh : keyHandler) :
  disableKeyID kh = true ->
  length ks <> 1%nat ->
  exists err, updateKeySet (inr ks) now kh = (kh, inl err).
Proof.
  intros Hmode Hlen. unfold updateKeySet. rewrite Hmode. simpl.
  apply Nat.eqb_neq in Hlen. rewrite Hlen. simpl. eauto.
Qed.

Lemma step_finish_installs (kh : keyHandler) (batch : list Request) (ks : list Key) (t : Time) :
  inflight kh = Some batch ->
  (disableKeyID kh = true -> length ks = 1%nat) ->
  step kh (FinishRefresh (inr ks) t)
  = respond batch (inr ks) (set_pending (queue kh) None (install ks t kh)).
Proof.
  intros Hbatch Hmode. unfold step. rewrite Hbatch.
  rewrite (updateKeySet_installs ks t kh Hmode). reflexivity.
Qed.

Lemma step_finish_refuses (kh : keyHandler) (batch : list Request) (ks : list Key) (t : Time) :
  inflight kh = Some batch ->
  disableKeyID kh = true ->
  length ks <> 1%nat ->
  exists err,
    step kh (FinishRefresh (inr ks) t) = respond batch (inl err) (set_pending (queue kh) None kh).
Proof.
  intros Hbatch Hmode Hlen. unfold step. rewrite Hbatch.
  destruct (updateKeySet_refuses ks t kh Hmode Hlen) as [err ->]. eauto.
Qed.

Lemma requestsOf_ids (count : Z) (ids : list nat) :
  map req_id (requestsOf count ids) = ids.
Proof.
  unfold requestsOf. rewrite map_map. simpl. apply map_id.
Qed.

(** C3: for [N >= 1] callers whose requests all arrive before the
    refresher starts (others may arrive while the fetch is in flight),
    one refresh serves them all: when the fetched key set can be
    installed, the update count grows by exactly one and each of the [N]
    callers receives the newly installed key set; the later arrivals stay
    queued for the next batch. *)
Theorem concurrent_refresh_coalesced
    (kh : keyHandler) (N : nat) (ids later : list nat) (ks : list Key) (t : Time) :
  queue kh = [] ->
  inflight kh = None ->
  length ids = N ->
  (1 <= N)%nat ->
  (disableKeyID kh = true -> length ks = 1%nat) ->
  let kh' := run (map Arrive ids ++ [BeginRefresh] ++ map Arrive later
                  ++ [FinishRefresh (inr ks) t]) kh in
  keyUpdateCount kh' = keyUpdateCount kh + 1 /\
  keySet kh' = ks /\
  (forall id, In id ids -> responses kh' !! id = Some (inr (keySet kh'))) /\
  queue kh' = requestsOf (keyUpdateCount kh) later /\
  inflight kh' = None.
Proof.
  intros Hq Hin Hlen HN Hmode kh'. subst kh'.
  rewrite !run_app, (run_arrivals ids kh). rewrite Hq, Hin. simpl app.
  destruct ids as [| id0 ids']; [simpl in Hlen; lia |].
  set (batch := requestsOf (keyUpdateCount kh) (id0 :: ids')).
  assert (Hbegin : run [BeginRefresh] (set_pending batch None kh)
                   = set_pending [] (Some batch) kh) by reflexivity.
  set (kh1 := set_pending (requestsOf (keyUpdateCount kh) later) (Some batch)
                (set_pending [] (Some batch) kh)).
  assert (Hlater : run (map Arrive later) (set_pending [] (Some batch) kh) = kh1)
    by (rewrite run_arrivals; reflexivity).
  rewrite Hbegin, Hlater.
  assert (Hfinish : run [FinishRefresh (inr ks) t] kh1
                    = respond batch (inr ks)
                        (set_pending (queue kh1) None (install ks t kh1))).
  { unfold run; cbn [fold_left]. apply step_finish_installs; [reflexivity | exact Hmode]. }
  rewrite Hfinish.
  split; [reflexivity | split; [reflexivity | split; [| split; reflexivity]]].
  intros id Hid. cbn [keySet respond set_pending install]. apply respond_lookup.
  unfold batch. rewrite requestsOf_ids. exact Hid.
Qed.

(** C4: in unkeyed mode, a refresh that fetches more than one key
    returns an error, leaves the installed single-key set in place and
    leaves the update count as it was; the waiters of the batch, and a
    caller of [waitForUpdateKeySetAndGetKey], receive the error. *)
Theorem unkeyed_refresh_refuses_many_keys
    (kh : keyHandler) (k : Key) (ks : list Key) (t : Time) :
  disableKeyID kh = true ->
  keySet kh = [k] ->
  (1 < length ks)%nat ->
  (exists err, updateKeySet (inr ks) t kh = (kh, inl err)) /\
  (forall batch, inflight kh = Some batch ->
     let kh' := step kh (FinishRefresh (inr ks) t) in
     keySet kh' = [k] /\
     keyUpdateCount kh' = keyUpdateCount kh /\
     exists err, forall rq, In rq batch -> responses kh' !! req_id rq = Some (inl err)) /\
  (forall (w : ModelWorld.World) (p : keyHandlerPtr),
     ModelWorld.managers w !! p = Some kh ->
     queue kh = [] ->
     inflight kh = None ->
     ModelWorld.jwksEndpoint w (jwksUri kh) = inr ks ->
     exists err kh',
       snd (ModelWorld.waitForUpdateKeySetAndGetKey p w) = inl err /\
       ModelWorld.managers (fst (ModelWorld.waitForUpdateKeySetAndGetKey p w)) !! p = Some kh' /\
       keySet kh' = [k] /\
       keyUpdateCount kh' = keyUpdateCount kh).
Proof.
  intros Hmode Hset Hlen.
  assert (Hne : length ks <> 1%nat) by lia.
  destruct (updateKeySet_refuses ks t kh Hmode Hne) as [err Herr].
  split; [eauto | split].
  - intros batch Hbatch kh'. subst kh'.
    destruct (step_finish_refuses kh batch ks t Hbatch Hmode Hne) as [err' ->].
    split; [exact Hset | split; [reflexivity |]].
    exists err'. intros rq Hrq. apply respond_lookup. now apply in_map.
  - intros w p Hp Hq Hfl Hserved.
    unfold ModelWorld.waitForUpdateKeySetAndGetKey, ModelWorld.waitForUpdateKeySetAndGetKeySet.
    rewrite Hp. unfold ModelWorld.forceRefresh. rewrite Hserved.
    set (id := ModelWorld.nextRequest w).
    set (t' := gate (ModelWorld.clock w) kh).
    set (rq := mkRequest id (keyUpdateCount kh)).
    assert (Hbegin : run [Arrive id; BeginRefresh] kh = set_pending [] (Some [rq]) kh).
    { unfold run; cbn [fold_left]. unfold step at 2. rewrite Hq, Hfl. reflexivity. }
    change [Arrive id; BeginRefresh; FinishRefresh (inr ks) t']
      with ([Arrive id; BeginRefresh] ++ [FinishRefresh (inr ks) t'])%list.
    rewrite run_app, Hbegin. unfold run; cbn [fold_left].
    destruct (step_finish_refuses (set_pending [] (Some [rq]) kh) [rq] ks t'
                eq_refl Hmode Hne) as [err' ->].
    rewrite (respond_lookup [rq] (inl err') _ id) by (left; reflexivity).
    cbn [fst snd].
    exists err', (respond [rq] (inl err') (set_pending [] None kh)).
    split; [reflexivity | split; [| split; [exact Hset | reflexivity]]].
    unfold ModelWorld.store; cbn [ModelWorld.managers].
    apply list_lookup_insert_eq. eapply lookup_lt_Some. exact Hp.
Qed.

End KeyHandlerModel.

(** Three callers queue before the refresher starts and one more while
    the fetch is in flight: one install, the same key set for the
    three. *)
Lemma concurrent_refresh_coalesced_witness :
  let kh' := KeyHandler.run
               (map KeyHandler.Arrive [10; 11; 12]%nat ++ [KeyHandler.BeginRefresh]
                ++ map KeyHandler.Arrive [13%nat]
                ++ [KeyHandler.FinishRefresh (inr [Fixture.K2; Fixture.K3]) (12 * time.Second)])
               Fixture.keyedManager in
  KeyHandler.keyUpdateCount kh' = KeyHandler.keyUpdateCount Fixture.keyedManager + 1 /\
  KeyHandler.keySet kh' = [Fixture.K2; Fixture.K3] /\
  (forall id, In id [10; 11; 12]%nat ->
     KeyHandler.responses kh' !! id = Some (inr (KeyHandler.keySet kh'))) /\
  KeyHandler.queue kh'
    = KeyHandler.requestsOf (KeyHandler.keyUpdateCount Fixture.keyedManager) [13%nat] /\
  KeyHandler.inflight kh' = None.
Proof.
  apply (concurrent_refresh_coalesced Fixture.keyedManager 3
           [10; 11; 12]%nat [13%nat] [Fixture.K2; Fixture.K3] (12 * time.Second)).
  - reflexivity.
  - reflexivity.
  - reflexivity.
  - lia.
  - intros Hmode. vm_compute in Hmode. discriminate Hmode.
Defined.

(** The unkeyed manager holding [K1] is served two keys. *)
Lemma unkeyed_refresh_refuses_many_keys_witness :
  exists err,
    KeyHandler.updateKeySet (inr [Fixture.K1; Fixture.K2]) (12 * time.Second)
      Fixture.unkeyedManager
    = (Fixture.unkeyedManager, inl err).
Proof.
  apply (unkeyed_refresh_refuses_many_keys Fixture.unkeyedManager Fixture.K1
           [Fixture.K1; Fixture.K2] (12 * time.Second)).
  - reflexivity.
  - reflexivity.
  - simpl. lia.
Defined.

(** ** Forced refresh and retry in [ParseToken] *)

Section Retry.
Context {V : Type} `{Lib : Library V} `{CM : ClaimsMatcher V} `{KM : KeyManager}.

(** What [getAndValidateTokenFromString] returns as an error is the
    sentinel or a library error whose message does not contain the
    sentinel's text. *)
Lemma getAndValidateTokenFromString_error (tokenString : string) (key : Key)
    (alg : SignatureAlgorithm) (err : error) :
  getAndValidateTokenFromString tokenString key alg = inl err ->
  (err = errSignatureVerification /\
   exists msg, jwt_ParseString tokenString alg key = inl msg /\
               strings_Contains msg errSignatureVerification_Error = true) \/
  (exists msg, err = ExternalError msg /\
               jwt_ParseString tokenString alg key = inl msg /\
               strings_Contains msg errSignatureVerification_Error = false).
Proof.
  unfold getAndValidateTokenFromString.
  destruct (jwt_ParseString tokenString alg key) as [msg | token]; [| discriminate].
  destruct (strings_Contains msg errSignatureVerification_Error) eqn:Hc; intros [= <-].
  - left. eauto.
  - right. eauto.
Qed.

Lemma getAndValidateTokenFromString_Is (tokenString : string) (key : Key)
    (alg : SignatureAlgorithm) (err : error) :
  getAndValidateTokenFromString tokenString key alg = inl err ->
  errors_Is_errSignatureVerification err = true <-> err = errSignatureVerification.
Proof.
  intros H. apply getAndValidateTokenFromString_error in H as [[-> _] | (msg & -> & _)].
  - split; reflexivity.
  - split; discriminate.
Qed.

Ltac sentinel :=
  match goal with
  | H1 : getAndValidateTokenFromString _ _ _ = inl ?e,
    H2 : errors_Is_errSignatureVerification ?e = true |- _ =>
      apply (getAndValidateTokenFromString_Is _ _ _ _ H1) in H2; subst e
  end.

(** The checks and forced refreshes of one call have one of four shapes. *)
Lemma ParseToken_attempts (h : handler V) (w : World) (tokenString : string) :
  AttemptShape h tokenString (snd (runParseToken h w tokenString))
    (attempts (st_calls (fst (runParseToken h w tokenString)))).
Proof.
  destruct (runParseToken h w tokenString) as [st' result] eqn:H.
  unfold runParseToken, ParseToken, loadJwks in H. unfold_monad.
  explore H.
  all: inversion H; subst; clear H; cbn.
  all: try apply NoAttempt.
  all: norm_bool.
  all: try congruence.
  all: try sentinel.
  all: first
    [ eapply OneAttempt; [eassumption | eassumption |];
      intros e' He';
      first [discriminate He' | injection He' as <-; split; [assumption | reflexivity]]
    | eapply RefreshFailed; [assumption | eassumption | reflexivity]
    | eapply Retried; [assumption | eassumption | eassumption | eassumption |];
      intros e' He'; first [discriminate He' | injection He' as <-; reflexivity] ].
Qed.

(** A successful [loadJwks] leaves a key manager in the handler. *)
Lemma loadJwks_Ok_keyHandler (st st1 : PState V) :
  loadJwks st = (st1, Ok tt) -> exists p, keyHandler (st_handler st1) = Some p.
Proof.
  intros H. unfold loadJwks in H. unfold_monad. explore H.
  all: inversion H; subst; clear H; cbn; eauto.
Qed.

Lemma ParseToken_afterLoad (st st1 : PState V) (tokenString : string) :
  afterLoad st st1 ->
  ParseToken tokenString st = ParseToken tokenString st1 /\
  exists p, keyHandler (st_handler st1) = Some p.
Proof.
  unfold afterLoad. destruct (keyHandler (st_handler st)) as [p |] eqn:Hkh.
  - intros ->. eauto.
  - intros Hload. destruct (loadJwks_Ok_keyHandler _ _ Hload) as [p Hp].
    split; [| eauto].
    unfold ParseToken. unfold wrapError, bind, getHandler, ret.
    rewrite Hkh, Hload, Hp. reflexivity.
Qed.

(** An error met before the signature check is returned in the state
    reached so far. *)
Lemma ParseToken_before_check (h : handler V) (w : World) (log : list Call)
    (tokenString : string) (p : keyHandlerPtr) :
  keyHandler h = Some p ->
  let run := ParseToken tokenString (mkPState h w log) in
  (isTokenTypeValid (requiredTokenType h) tokenString = false ->
     run = (mkPState h w log, Err (Errorf "token type %q required" [requiredTokenType h]))) /\
  (isTokenTypeValid (requiredTokenType h) tokenString = true ->
     (forall e,
        disableKeyID h = false ->
        getKeyIDFromTokenString tokenString = inl e ->
        run = (mkPState h w log, Err e)) /\
     (forall keyID w1 r,
        (if disableKeyID h then inr "" else getKeyIDFromTokenString tokenString) = inr keyID ->
        getKey p keyID w = (w1, r) ->
        (forall e, r = inl e ->
           run = (mkPState h w1 (log ++ [CallGetKey keyID r]),
                  Err (ErrorfW "unable to get public key: %w" [] e))) /\
        (forall key e, r = inr key ->
           getSignatureAlgorithm (key_KeyType key) (key_Algorithm key)
             (fallbackSignatureAlgorithm h) = inl e ->
           run = (mkPState h w1 (log ++ [CallGetKey keyID r]), Err e)))).
Proof.
  intros Hkh run. subst run. unfold ParseToken. unfold_monad.
  cbv beta iota delta [st_handler st_world st_calls]. rewrite Hkh.
  split.
  - intros ->. reflexivity.
  - intros ->. cbn [negb]. split.
    + intros e -> ->. reflexivity.
    + intros keyID w1 r Hid Hget.
      split.
      * intros e ->. 
        destruct (disableKeyID h); cbn [negb]; [injection Hid as <- | rewrite Hid];
        cbv beta iota delta [st_handler st_world st_calls]; rewrite Hkh, Hget; reflexivity.
      * intros key e -> Halg.
        destruct (disableKeyID h); cbn [negb]; [injection Hid as <- | rewrite Hid];
        cbv beta iota delta [st_handler st_world st_calls]; rewrite Hkh, Hget; cbv beta iota delta [st_handler st_world st_calls]; rewrite Halg; reflexivity.
Qed.

(** From the signature check on: the state and the result for each
    result of the check and of the forced refresh. *)
Lemma ParseToken_at_check (h : handler V) (w w1 : World) (log : list Call)
    (tokenString : string) (p : keyHandlerPtr) (keyID : string) (key : Key)
    (alg : SignatureAlgorithm) :
  keyHandler h = Some p ->
  isTokenTypeValid (requiredTokenType h) tokenString = true ->
  (if disableKeyID h then inr "" else getKeyIDFromTokenString tokenString) = inr keyID ->
  getKey p keyID w = (w1, inr key) ->
  getSignatureAlgorithm (key_KeyType key) (key_Algorithm key) (fallbackSignatureAlgorithm h)
  = inr alg ->
  let run := ParseToken tokenString (mkPState h w log) in
  let check := getAndValidateTokenFromString tokenString key alg in
  (forall token,
     check = inr token ->
     fst run = mkPState h w1 (log ++ [CallGetKey keyID (inr key); CallVerify key alg check])) /\
  (forall e,
     check = inl e ->
     disableKeyID h && errors_Is_errSignatureVerification e = false ->
     run = (mkPState h w1 (log ++ [CallGetKey keyID (inr key); CallVerify key alg check]),
            Err e)) /\
  (forall e w2 r,
     check = inl e ->
     disableKeyID h && errors_Is_errSignatureVerification e = true ->
     waitForUpdateKeySetAndGetKey p w1 = (w2, r) ->
     (forall e2,
        r = inl e2 ->
        run = (mkPState h w2
                 (log ++ [CallGetKey keyID (inr key); CallVerify key alg check;
                          CallWaitForUpdateKeySetAndGetKey r]),
               Err e2)) /\
     (forall updatedKey,
        r = inr updatedKey ->
        let retry := getAndValidateTokenFromString tokenString updatedKey alg in
        fst run = mkPState h w2
                    (log ++ [CallGetKey keyID (inr key); CallVerify key alg check;
                             CallWaitForUpdateKeySetAndGetKey r;
                             CallVerify updatedKey alg retry]) /\
        (forall e2, retry = inl e2 -> snd run = Err e2))).
Proof.
  intros Hkh Htype Hid Hget Halg run check. subst run check.
  unfold ParseToken. unfold_monad. run_state. rewrite Hkh, Htype. cbn [negb].
  assert (Hrest : forall (k : string -> PState V -> PState V * outcome Token),
            (let (st', o) :=
               (if negb (disableKeyID h)
                then fun st0 : PState V =>
                       (st0, match getKeyIDFromTokenString tokenString with
                             | inl e => Err e
                             | inr a => Ok a
                             end)
                else fun st0 : PState V => (st0, Ok "")) (mkPState h w log) in
             match o with
             | Ok a => k a st'
             | Err e => (st', Err e)
             | Panic => (st', Panic)
             end) = k keyID (mkPState h w log)).
  { intros k. destruct (disableKeyID h); cbn [negb].
    - injection Hid as <-. reflexivity.
    - rewrite Hid. reflexivity. }
  rewrite Hrest. clear Hrest. run_state. rewrite Hkh, Hget. run_state. rewrite Halg.
  destruct (getAndValidateTokenFromString tokenString key alg) as [e | token] eqn:Hcheck.
  - split; [intros ? [=] |]. split.
    + intros e' [= <-] Hno. rewrite Hno. run_state. rewrite <- app_assoc. reflexivity.
    + intros e' w2 r [= <-] Hyes Hwait. rewrite Hyes. run_state. rewrite Hkh, Hwait.
      run_state. split.
      * intros e2 ->. rewrite <- !app_assoc. reflexivity.
      * intros updatedKey ->.
        destruct (getAndValidateTokenFromString tokenString updatedKey alg) as [e2 | token2].
        -- split; [rewrite <- !app_assoc; reflexivity |]. intros ? [= <-]. reflexivity.
        -- split; [| intros ? [=]]. run_state.
           repeat (split_goal; run_state). 
           all: rewrite <- !app_assoc; reflexivity.
  - split; [| split; intros; discriminate].
    intros ? _. run_state. repeat (split_goal; run_state).
    all: rewrite <- !app_assoc; reflexivity.
Qed.


(** C10: an error of the library whose message contains the text of the
    sentinel is replaced by the sentinel; any other error of the library
    is returned as it is and is not the sentinel.  In a call of
    [ParseToken]: an error met before the signature check (the token
    type, the key id, the key lookup, the resolution of the algorithm) is
    returned with no forced refresh; a check that accepts the token is
    followed by no forced refresh; a check that fails is followed by the
    one call of [waitForUpdateKeySetAndGetKey] exactly when the mode is
    unkeyed and the message of the library contains the text, and
    otherwise its error, the library error or in keyed mode also the
    sentinel, is returned at once in the world that [getKey] left. *)
Theorem signature_failure_is_sentinel (st st1 : PState V) (tokenString : string)
    (p : keyHandlerPtr) :
  let h := st_handler st1 in
  let run := ParseToken tokenString st in
  (forall key alg msg,
     jwt_ParseString tokenString alg key = inl msg ->
     (strings_Contains msg errSignatureVerification_Error = true ->
        getAndValidateTokenFromString tokenString key alg = inl errSignatureVerification) /\
     (strings_Contains msg errSignatureVerification_Error = false ->
        getAndValidateTokenFromString tokenString key alg = inl (ExternalError msg) /\
        errors_Is_errSignatureVerification (ExternalError msg) = false)) /\
  (afterLoad st st1 ->
   keyHandler h = Some p ->
   (isTokenTypeValid (requiredTokenType h) tokenString = false ->
      run = (st1, Err (Errorf "token type %q required" [requiredTokenType h]))) /\
   (isTokenTypeValid (requiredTokenType h) tokenString = true ->
      (forall e,
         disableKeyID h = false ->
         getKeyIDFromTokenString tokenString = inl e ->
         run = (st1, Err e)) /\
      (forall keyID w1 looked,
         (if disableKeyID h then inr "" else getKeyIDFromTokenString tokenString) = inr keyID ->
         getKey p keyID (st_world st1) = (w1, looked) ->
         let reached := (st_calls st1 ++ [CallGetKey keyID looked])%list in
         match looked with
         | inl e =>
             run = (mkPState h w1 reached, Err (ErrorfW "unable to get public key: %w" [] e))
         | inr key =>
             match getSignatureAlgorithm (key_KeyType key) (key_Algorithm key)
                     (fallbackSignatureAlgorithm h) with
             | inl e => run = (mkPState h w1 reached, Err e)
             | inr alg =>
                 match jwt_ParseString tokenString alg key with
                 | inr token =>
                     fst run = mkPState h w1 (reached ++ [CallVerify key alg (inr token)])
                 | inl msg =>
                     if strings_Contains msg errSignatureVerification_Error then
                       if disableKeyID h then
                         forall w2 r,
                           waitForUpdateKeySetAndGetKey p w1 = (w2, r) ->
                           st_world (fst run) = w2 /\
                           exists retry,
                             st_calls (fst run)
                             = (reached ++ [CallVerify key alg (inl errSignatureVerification);
                                            CallWaitForUpdateKeySetAndGetKey r] ++ retry)%list /\
                             match r with
                             | inl e2 => retry = [] /\ snd run = Err e2
                             | inr updatedKey =>
                                 retry = [CallVerify updatedKey alg
                                            (getAndValidateTokenFromString tokenString
                                               updatedKey alg)]
                             end
                       else
                         run = (mkPState h w1
                                  (reached ++ [CallVerify key alg (inl errSignatureVerification)]),
                                Err errSignatureVerification)
                     else
                       run = (mkPState h w1
                                (reached ++ [CallVerify key alg (inl (ExternalError msg))]),
                              Err (ExternalError msg))
                 end
             end
         end))).
Proof.
  intros h run. split.
  { intros key alg msg Hmsg. unfold getAndValidateTokenFromString. rewrite Hmsg.
    split; intros ->; auto. }
  intros Hload Hkh.
  destruct (ParseToken_afterLoad st st1 tokenString Hload) as [Hrun _].
  subst run. rewrite Hrun. clear Hrun.
  destruct st1 as [h1 w log]. cbn [st_handler st_world st_calls] in *. subst h.
  destruct (ParseToken_before_check h1 w log tokenString p Hkh) as [Htype Hgo].
  split; [exact Htype |].
  intros Hok. destruct (Hgo Hok) as [Hkid Hlook]. split; [exact Hkid |].
  intros keyID w1 looked Hid Hget. cbv zeta.
  destruct (Hlook keyID w1 looked Hid Hget) as [Hfail Halgfail].
  destruct looked as [e | key]; [exact (Hfail e eq_refl) |].
  destruct (getSignatureAlgorithm (key_KeyType key) (key_Algorithm key)
              (fallbackSignatureAlgorithm h1)) as [e | alg] eqn:Halg;
    [exact (Halgfail key e eq_refl Halg) |].
  destruct (ParseToken_at_check h1 w w1 log tokenString p keyID key alg
              Hkh Hok Hid Hget Halg) as (Hacc & Hret & Hrefresh).
  unfold getAndValidateTokenFromString in Hacc, Hret, Hrefresh.
  destruct (jwt_ParseString tokenString alg key) as [msg | token] eqn:Hmsg.
  - destruct (strings_Contains msg errSignatureVerification_Error) eqn:Hc.
    + destruct (disableKeyID h1) eqn:Hmode.
      * intros w2 r Hwait.
        destruct (Hrefresh errSignatureVerification w2 r eq_refl eq_refl Hwait)
          as [Hf Hretry].
        destruct r as [e2 | updatedKey].
        -- rewrite (Hf e2 eq_refl). cbn [fst snd st_world st_calls].
           split; [reflexivity |]. exists []. rewrite <- !app_assoc. auto.
        -- destruct (Hretry updatedKey eq_refl) as [Hst _]. rewrite Hst.
           cbn [fst st_world st_calls]. split; [reflexivity |].
           eexists. rewrite <- !app_assoc. split; reflexivity.
      * rewrite (Hret errSignatureVerification eq_refl eq_refl), <- app_assoc. reflexivity.
    + rewrite (Hret (ExternalError msg) eq_refl (andb_false_r _)), <- app_assoc. reflexivity.
  - rewrite (Hacc token eq_refl), <- app_assoc. reflexivity.
Qed.

(** In the retry, the algorithm is the one resolved from the key that
    failed the first check, not from the key the refresh returned. *)
Lemma ParseToken_retry_algorithm (h : handler V) (w : World) (tokenString : string)
    (key updatedKey : Key) (alg alg' : SignatureAlgorithm) (r r' : error + Token) :
  attempts (st_calls (fst (runParseToken h w tokenString)))
  = [CallVerify key alg r; CallWaitForUpdateKeySetAndGetKey (inr updatedKey);
     CallVerify updatedKey alg' r'] ->
  alg' = alg /\
  getSignatureAlgorithm (key_KeyType key) (key_Algorithm key) (fallbackSignatureAlgorithm h)
  = inr alg'.
Proof.
  intros Hlog.
  pose proof (ParseToken_attempts h w tokenString) as Hshape.
  rewrite Hlog in Hshape. inversion Hshape; subst. auto.
Qed.

End Retry.

(** ** What [ParseToken] leaves of the handler *)

Section Frame.
Context {V : Type} `{Lib : Library V} `{CM : ClaimsMatcher V} `{KM : KeyManager}.

(** C9: a call of [ParseToken] leaves every policy field of the handler
    as it was; a handler that has a key manager is left unchanged
    altogether; a handler without one is changed only by the lazy load,
    which may set the JWKS URI (when it was empty) and install the key
    manager. *)
Theorem ParseToken_frame (h : handler V) (w : World) (tokenString : string) :
  let h' := st_handler (fst (runParseToken h w tokenString)) in
  (issuer h' = issuer h /\
   discoveryUri h' = discoveryUri h /\
   requiredAudience h' = requiredAudience h /\
   requiredTokenType h' = requiredTokenType h /\
   requiredClaims h' = requiredClaims h /\
   fallbackSignatureAlgorithm h' = fallbackSignatureAlgorithm h /\
   allowedTokenDrift h' = allowedTokenDrift h /\
   jwksFetchTimeout h' = jwksFetchTimeout h /\
   jwksRateLimit h' = jwksRateLimit h /\
   disableKeyID h' = disableKeyID h /\
   httpClient h' = httpClient h) /\
  (forall p, keyHandler h = Some p -> h' = h) /\
  (keyHandler h = None ->
     h' = h \/
     (exists uri, jwksUri h = "" /\ h' = set_jwksUri uri h) \/
     (exists p, jwksUri h <> "" /\ h' = set_keyHandler (Some p) h) \/
     (exists uri p, jwksUri h = "" /\ h' = set_keyHandler (Some p) (set_jwksUri uri h))).
Proof.
  intros h'. subst h'.
  destruct (runParseToken h w tokenString) as [st' result] eqn:H.
  unfold runParseToken, ParseToken, loadJwks in H. unfold_monad.
  explore H.
  all: inversion H; subst; clear H; cbn [fst st_handler].
  all: split; [repeat split; congruence | split].
  all: try (intros p Hp; first [congruence | reflexivity]).
  all: intros Hnone; try congruence.
  all: repeat match goal with
              | E : String.eqb _ _ = true |- _ => apply String.eqb_eq in E
              | E : String.eqb _ _ = false |- _ => apply String.eqb_neq in E
              end.
  all: first
    [ left; reflexivity
    | right; left; eexists; split; [eassumption | reflexivity]
    | right; right; left; eexists; split; [eassumption | reflexivity]
    | right; right; right; eexists _, _; split; [eassumption | reflexivity] ].
Qed.

End Frame.

(** ** The validator on the issuer of the examples *)



(** The rotation from [E1] to [E3] seen from the message of the library:
    the message of the ECDSA verifier contains the text, the mode is
    unkeyed, and the refresh is forced in the world that [getKey] left. *)
Lemma signature_failure_is_sentinel_witness :
  let h := Fixture.policy true (Some 0%nat) in
  let w := Fixture.world Fixture.unkeyedECManager (inr [Fixture.E3]) in
  let run := ParseToken (Lib := Fixture.lib) (CM := SpecClaimsMatcher) (KM := ModelKeyManager)
               "tokenE3" (mkPState h w []) in
  st_world (fst run) = fst (ModelWorld.waitForUpdateKeySetAndGetKey 0%nat w) /\
  exists retry,
    st_calls (fst run)
    = CallGetKey "" (inr Fixture.E1)
      :: CallVerify Fixture.E1 "ES256" (inl errSignatureVerification)
      :: CallWaitForUpdateKeySetAndGetKey (inr Fixture.E3) :: retry /\
    retry = [CallVerify Fixture.E3 "ES256"
               (getAndValidateTokenFromString (H := Fixture.lib) "tokenE3" Fixture.E3 "ES256")].
Proof.
  intros h w run.
  refine (proj2 (proj2 (proj2
            (signature_failure_is_sentinel (Lib := Fixture.lib) (CM := SpecClaimsMatcher)
               (KM := ModelKeyManager)
               (mkPState h w []) (mkPState h w []) "tokenE3" 0%nat) _ _) _)
            "" w (inr Fixture.E1) _ _
            (fst (ModelWorld.waitForUpdateKeySetAndGetKey 0%nat w)) (inr Fixture.E3) _);
    reflexivity.
Defined.

(** A handler that has its key manager is the same after the call. *)
Lemma ParseToken_frame_witness :
  st_handler (fst (runParseToken (Lib := Fixture.lib) (KM := ModelKeyManager)
                     (Fixture.policy true (Some 0%nat))
                     (Fixture.world Fixture.unkeyedManager (inr [Fixture.K4])) "tokenD"))
  = Fixture.policy true (Some 0%nat).
Proof.
  refine (proj1 (proj2
            (ParseToken_frame (Lib := Fixture.lib) (CM := SpecClaimsMatcher)
               (KM := ModelKeyManager)
               (Fixture.policy true (Some 0%nat))
               (Fixture.world Fixture.unkeyedManager (inr [Fixture.K4])) "tokenD"))
            0%nat _).
  reflexivity.
Defined.

(** C2: the issuer has rotated from the EC key [E1], which declares
    ES256, to the EC key [E2], which declares ES384, and the token is
    signed with [E2] and ES384.  The check against [E1] fails with the
    message of the ECDSA verifier, which contains the text of the
    sentinel; after the forced refresh [ParseToken] checks the token
    against [E2] with ES256, the algorithm of [E1], and returns the
    verification error; with the algorithm resolved from [E2] the check
    accepts the token. *)
Theorem ParseToken_retry_uses_failed_key_algorithm :
  let run := runParseToken (Lib := Fixture.lib) (KM := ModelKeyManager)
               (Fixture.policy true (Some 0%nat))
               (Fixture.world Fixture.unkeyedECManager (inr [Fixture.E2])) "tokenE2" in
  jwt_ParseString (Library := Fixture.lib) "tokenE2" "ES256" Fixture.E1
  = inl "failed to verify jws signature: failed to verify message: failed to verify signature using ecdsa" /\
  attempts (st_calls (fst run))
  = [CallVerify Fixture.E1 "ES256" (inl errSignatureVerification);
     CallWaitForUpdateKeySetAndGetKey (inr Fixture.E2);
     CallVerify Fixture.E2 "ES256" (inl errSignatureVerification)] /\
  snd run = Err errSignatureVerification /\
  getSignatureAlgorithm (H := Fixture.lib)
    (key_KeyType Fixture.E2) (key_Algorithm Fixture.E2) "" = inr "ES384" /\
  getAndValidateTokenFromString (H := Fixture.lib) "tokenE2" Fixture.E2 "ES384"
  = inr (Fixture.iss_token Fixture.tokenE2).
Proof.
  intros run. subst run.
  split; [| split; [| split; [| split]]]; vm_compute; reflexivity.
Qed.

(** * Further properties of the validator *)

(** ** The audience and type gates, and the key id of a token *)

Section Gates.
Context {V : Type} `{Lib : Library V}.

Lemma isTokenAudienceValid_loop_In (requiredAudience : string) (audiences : list string) :
  isTokenAudienceValid_loop requiredAudience audiences = true <-> In requiredAudience audiences.
Proof.
  induction audiences as [| audience rest IH]; simpl.
  - split; [discriminate | tauto].
  - destruct (String.eqb_spec audience requiredAudience) as [-> | Hne].
    + split; auto.
    + rewrite IH. split; [auto |]. intros [Heq | Hin]; [now elim Hne | exact Hin].
Qed.

(** X1: the audience gate accepts exactly when no audience is required
    or the required audience is one of the token's audiences; a token
    without audiences passes only when none is required. *)
Theorem isTokenAudienceValid_iff (requiredAudience : string) (audiences : list string) :
  (isTokenAudienceValid requiredAudience audiences = true <->
   requiredAudience = "" \/ In requiredAudience audiences) /\
  (isTokenAudienceValid requiredAudience [] = true <-> requiredAudience = "").
Proof.
  unfold isTokenAudienceValid.
  destruct (String.eqb_spec requiredAudience "") as [-> | Hne].
  - split; split; auto.
  - split.
    + rewrite isTokenAudienceValid_loop_In. split; [auto |].
      intros [Heq | Hin]; [now elim Hne | exact Hin].
    + simpl. split; [discriminate | intros Heq; now elim Hne].
Qed.

Lemma getHeadersFromTokenString_inr (tokenString : string) (headers : Headers) :
  getHeadersFromTokenString tokenString = inr headers <->
  jws_ParseString tokenString = inr [headers].
Proof.
  unfold getHeadersFromTokenString.
  destruct (jws_ParseString tokenString) as [msg | [| h1 [| h2 rest]]].
  - split; discriminate.
  - split; discriminate.
  - split; intros [= ->]; reflexivity.
  - split; discriminate.
Qed.

(** X2: the type gate accepts exactly when no type is required, or the
    token parses with exactly one signature whose protected header has
    the required [typ]. *)
Theorem isTokenTypeValid_iff (requiredTokenType tokenString : string) :
  isTokenTypeValid requiredTokenType tokenString = true <->
  requiredTokenType = "" \/
  exists headers,
    jws_ParseString tokenString = inr [headers] /\ hdr_Type headers = requiredTokenType.
Proof.
  unfold isTokenTypeValid, getTokenTypeFromTokenString.
  destruct (String.eqb_spec requiredTokenType "") as [-> | Hne]; [split; auto |].
  destruct (getHeadersFromTokenString tokenString) as [err | headers] eqn:Hh.
  - split; [discriminate |]. intros [Heq | (headers & Hp & _)]; [now elim Hne |].
    apply getHeadersFromTokenString_inr in Hp. congruence.
  - apply getHeadersFromTokenString_inr in Hh.
    destruct (String.eqb_spec (hdr_Type headers) "") as [Hempty | Hfull].
    + split; [discriminate |]. intros [Heq | (headers' & Hp & Ht)]; [now elim Hne |].
      rewrite Hh in Hp. injection Hp as <-. congruence.
    + rewrite String.eqb_eq. split.
      * intros Ht. right. eauto.
      * intros [Heq | (headers' & Hp & Ht)]; [now elim Hne |].
        rewrite Hh in Hp. injection Hp as <-. exact Ht.
Qed.

(** X3: a key id is read from a token exactly when the token parses with
    exactly one signature whose protected header has a [kid] that is not
    empty; the key id returned is never empty. *)
Theorem getKeyIDFromTokenString_inr (tokenString keyID : string) :
  getKeyIDFromTokenString tokenString = inr keyID <->
  keyID <> "" /\
  exists headers, jws_ParseString tokenString = inr [headers] /\ hdr_KeyID headers = keyID.
Proof.
  unfold getKeyIDFromTokenString.
  destruct (getHeadersFromTokenString tokenString) as [err | headers] eqn:Hh.
  - split; [discriminate |]. intros (_ & headers & Hp & _).
    apply getHeadersFromTokenString_inr in Hp. congruence.
  - apply getHeadersFromTokenString_inr in Hh.
    destruct (String.eqb_spec (hdr_KeyID headers) "") as [Hempty | Hfull].
    + split; [discriminate |]. intros (Hne & headers' & Hp & Hk).
      rewrite Hh in Hp. injection Hp as <-. congruence.
    + split.
      * intros [= <-]. split; [exact Hfull | eauto].
      * intros (_ & headers' & Hp & Hk). rewrite Hh in Hp. injection Hp as <-.
        now rewrite Hk.
Qed.

End Gates.

(** ** The discovery URI *)

Lemma strings_TrimSuffix_slash_app_slash (s : string) :
  strings_TrimSuffix_slash (s +:+ "/") = s.
Proof.
  induction s as [| c s IH]; [reflexivity |].
  simpl. rewrite IH. destruct s; reflexivity.
Qed.

Lemma strings_TrimSuffix_slash_app_other (s : string) (c : ascii) :
  c <> "/"%char -> strings_TrimSuffix_slash (s +:+ String c "") = s +:+ String c "".
Proof.
  intros Hc. induction s as [| c' s IH].
  - simpl. apply Ascii.eqb_neq in Hc. rewrite Hc. reflexivity.
  - simpl. rewrite IH. destruct s; reflexivity.
Qed.

(** X4: the discovery URI of an issuer is the issuer, less one trailing
    slash if it has one, followed by the well-known path: an issuer
    written with or without its trailing slash has the same discovery
    URI, and only one slash is removed. *)
Theorem GetDiscoveryUriFromIssuer_trailing_slash :
  (forall s, GetDiscoveryUriFromIssuer (s +:+ "/")
             = s +:+ "/.well-known/openid-configuration") /\
  (forall s c, c <> "/"%char ->
     GetDiscoveryUriFromIssuer (s +:+ String c "")
     = (s +:+ String c "") +:+ "/.well-known/openid-configuration") /\
  GetDiscoveryUriFromIssuer "" = "/.well-known/openid-configuration" /\
  (forall s c, c <> "/"%char ->
     GetDiscoveryUriFromIssuer ((s +:+ String c "") +:+ "/")
     = GetDiscoveryUriFromIssuer (s +:+ String c "")).
Proof.
  unfold GetDiscoveryUriFromIssuer. split; [| split; [| split]].
  - intros s. now rewrite strings_TrimSuffix_slash_app_slash.
  - intros s c Hc. now rewrite strings_TrimSuffix_slash_app_other.
  - reflexivity.
  - intros s c Hc.
    now rewrite strings_TrimSuffix_slash_app_slash, strings_TrimSuffix_slash_app_other.
Qed.

(** ** Construction of the handler *)

Section Construction.
Context {V : Type} `{Lib : Library V} `{CM : ClaimsMatcher V} `{KM : KeyManager}.

Lemma getSignatureAlgorithmFromString_inr (s : string) (alg : SignatureAlgorithm) :
  getSignatureAlgorithmFromString s = inr alg -> alg = s /\ In s allSignatureAlgorithms.
Proof.
  unfold getSignatureAlgorithmFromString, SignatureAlgorithm_Accept.
  destruct (existsb (String.eqb s) allSignatureAlgorithms) eqn:E; [| discriminate].
  intros [= <-]. split; [reflexivity |].
  apply existsb_exists in E as (x & Hx & Heq). apply String.eqb_eq in Heq. now subst x.
Qed.

Lemma append_nonempty (s t : string) : t <> "" -> s +:+ t <> "".
Proof. intros Ht. destruct s; simpl; [exact Ht | discriminate]. Qed.

(** X5: without an issuer no handler is made, and nothing is fetched:
    the world is left as it was. *)
Theorem NewHandler_empty_issuer (opts : Options V) (w : World) :
  Issuer opts = "" ->
  NewHandler opts w = (w, Err (Errorf "issuer is empty" [])).
Proof.
  intros Hissuer. unfold NewHandler, NewHandler_body. unfold_monad.
  cbn [NewHandler_init issuer st_handler]. rewrite Hissuer. reflexivity.
Qed.

(** X6: a fallback algorithm that is not a known signature algorithm is
    refused before any key is loaded: the error wraps the library's, and
    the world is left as it was. *)
Theorem NewHandler_unknown_fallback (opts : Options V) (w : World) :
  Issuer opts <> "" ->
  FallbackSignatureAlgorithm opts <> "" ->
  ~ In (FallbackSignatureAlgorithm opts) allSignatureAlgorithms ->
  exists e,
    NewHandler opts w
    = (w, Err (ErrorfW "FallbackSignatureAlgorithm not accepted: %w" [] e)).
Proof.
  intros Hissuer Hfallback Hunknown.
  destruct (NewHandler opts w) as [w' result] eqn:H.
  unfold NewHandler, NewHandler_body, loadJwks in H. unfold_monad.
  cbn [NewHandler_init issuer discoveryUri jwksFetchTimeout jwksRateLimit allowedTokenDrift
       httpClient st_handler] in H.
  explore H.
  all: norm_bool; eqb_props; try congruence.
  all: try match goal with
           | E : getSignatureAlgorithmFromString _ = inr _ |- _ =>
               apply getSignatureAlgorithmFromString_inr in E as [_ E]; now elim Hunknown
           end.
  all: inversion H; subst; eauto.
Qed.

(** X7: the handler that [NewHandler] returns has the issuer and the
    requirements of the options, and every unset option at its default:
    the discovery URI derived from the issuer, a fetch timeout of 5
    seconds, a rate limit of 1, the default HTTP client; its fallback
    algorithm is the configured one, which is empty or a known signature
    algorithm. *)
Theorem NewHandler_defaults (opts : Options V) (w w' : World) (h : handler V) :
  NewHandler opts w = (w', Ok h) ->
  issuer h = Issuer opts /\
  issuer h <> "" /\
  discoveryUri h = (if String.eqb (DiscoveryUri opts) ""
                    then GetDiscoveryUriFromIssuer (Issuer opts) else DiscoveryUri opts) /\
  discoveryUri h <> "" /\
  jwksFetchTimeout h = (if Z.eqb (JwksFetchTimeout opts) 0
                        then 5 * time.Second else JwksFetchTimeout opts) /\
  jwksRateLimit h = (if Z.eqb (JwksRateLimit opts) 0 then 1 else JwksRateLimit opts) /\
  httpClient h = Some (match HttpClient_ opts with
                       | Some client => client
                       | None => DefaultClient
                       end) /\
  fallbackSignatureAlgorithm h = FallbackSignatureAlgorithm opts /\
  (FallbackSignatureAlgorithm opts = "" \/
   In (FallbackSignatureAlgorithm opts) allSignatureAlgorithms) /\
  requiredAudience h = RequiredAudience opts /\
  requiredTokenType h = RequiredTokenType opts /\
  requiredClaims h = RequiredClaims opts /\
  disableKeyID h = DisableKeyID opts.
Proof.
  intros H. unfold NewHandler, NewHandler_body, loadJwks in H. unfold_monad.
  cbn [NewHandler_init issuer discoveryUri jwksFetchTimeout jwksRateLimit allowedTokenDrift
       httpClient st_handler] in H.
  explore H.
  all: inversion H; subst; clear H; cbn.
  all: norm_bool; eqb_props.
  all: repeat match goal with
              | E : getSignatureAlgorithmFromString _ = inr _ |- _ =>
                  apply getSignatureAlgorithmFromString_inr in E as [-> ?]
              end.
  all: repeat match goal with |- _ /\ _ => split end.
  all: try reflexivity; try assumption; try (symmetry; assumption).
  all: try (apply append_nonempty; discriminate).
  all: try (left; assumption); try (right; assumption).
  all: try congruence.
Qed.

(** X8: with lazy loading [NewHandler] fetches nothing and installs no
    key manager; without it, a handler is returned only with a key
    manager installed and a JWKS URI that is not empty, the configured
    one if there is one. *)
Theorem NewHandler_lazy_or_loaded (opts : Options V) (w w' : World) (h : handler V) :
  NewHandler opts w = (w', Ok h) ->
  (LazyLoadJwks opts = true ->
     keyHandler h = None /\ w' = w /\ jwksUri h = JwksUri opts) /\
  (LazyLoadJwks opts = false ->
     keyHandler h <> None /\ jwksUri h <> "" /\
     (JwksUri opts <> "" -> jwksUri h = JwksUri opts)).
Proof.
  intros H. unfold NewHandler, NewHandler_body, loadJwks in H. unfold_monad.
  cbn [NewHandler_init issuer discoveryUri jwksFetchTimeout jwksRateLimit allowedTokenDrift
       httpClient st_handler] in H.
  explore H.
  all: inversion H; subst; clear H; cbn.
  all: norm_bool; eqb_props.
  all: split; intros Hlazy; try congruence.
  all: repeat match goal with |- _ /\ _ => split end.
  all: try reflexivity; try discriminate; try assumption; try congruence.
  all: intros Hset; cbn in *; congruence.
Qed.

End Construction.

(** ** The pipeline of [ParseToken] *)

Section Pipeline.
Context {V : Type} `{Lib : Library V} `{CM : ClaimsMatcher V} `{KM : KeyManager}.

Lemma isTokenIssuerValid_true (requiredIssuer tokenIssuer : string) :
  isTokenIssuerValid requiredIssuer tokenIssuer = true ->
  requiredIssuer <> "" /\ tokenIssuer = requiredIssuer.
Proof.
  unfold isTokenIssuerValid.
  destruct (String.eqb_spec requiredIssuer "") as [-> | Hne]; [discriminate |].
  intros Heq. apply String.eqb_eq in Heq. auto.
Qed.



Lemma ParseToken_Ok_issuer (h : handler V) (w : World) (tokenString : string)
    (st' : PState V) (token : Token) :
  runParseToken h w tokenString = (st', Ok token) -> issuer h <> "".
Proof.
  intros H. unfold runParseToken, ParseToken, loadJwks in H. unfold_monad.
  explore H.
  all: inversion H; subst; clear H.
  all: norm_bool; handler_simpl.
  all: match goal with
       | E : isTokenIssuerValid _ _ = true |- _ => now apply isTokenIssuerValid_true in E
       end.
Qed.

(** X10: with a key manager installed, a token rejected by the type gate,
    or (in keyed mode) a token without a key id, is rejected before the
    key manager is reached: no call is made and the handler and the world
    are as they were. *)
Theorem ParseToken_rejects_before_key_lookup
    (h : handler V) (w : World) (tokenString : string) (p : keyHandlerPtr) :
  keyHandler h = Some p ->
  (isTokenTypeValid (requiredTokenType h) tokenString = false ->
     runParseToken h w tokenString
     = (mkPState h w [], Err (Errorf "token type %q required" [requiredTokenType h]))) /\
  (forall e,
     isTokenTypeValid (requiredTokenType h) tokenString = true ->
     disableKeyID h = false ->
     getKeyIDFromTokenString tokenString = inl e ->
     runParseToken h w tokenString = (mkPState h w [], Err e)).
Proof.
  intros Hp. unfold runParseToken, ParseToken. unfold_monad. cbn [st_handler].
  rewrite Hp. cbn [st_handler]. split.
  - intros Htype. rewrite Htype. reflexivity.
  - intros e Htype Hmode Hkid. rewrite Htype, Hmode, Hkid. reflexivity.
Qed.

(** X11: the calls of one [ParseToken] come in a fixed order: at most one
    construction of a key manager, and only when the handler has none; at
    most one key lookup, under the empty key id in unkeyed mode and under
    the key id of the token in keyed mode; then the signature checks and
    the forced refresh.  A failed lookup ends the call with the wrapped
    error and no signature check; after a lookup that returns a key, the
    first check, if any, is against that key. *)
Theorem ParseToken_call_order (h : handler V) (w : World) (tokenString : string) :
  let log := st_calls (fst (runParseToken h w tokenString)) in
  let result := snd (runParseToken h w tokenString) in
  log = (loads log ++ lookups log ++ attempts log)%list /\
  (loads log = [] \/
   exists r, loads log = [CallNewKeyHandler r] /\ keyHandler h = None /\
             (forall e, r = inl e -> lookups log = [])) /\
  ((lookups log = [] /\ attempts log = []) \/
   exists keyID r,
     lookups log = [CallGetKey keyID r] /\
     (disableKeyID h = true -> keyID = "") /\
     (disableKeyID h = false -> getKeyIDFromTokenString tokenString = inr keyID) /\
     (forall e, r = inl e ->
        attempts log = [] /\
        result = Err (ErrorfW "unable to get public key: %w" [] e)) /\
     (forall key, r = inr key ->
        attempts log = [] \/
        exists alg r' rest, attempts log = CallVerify key alg r' :: rest)).
Proof.
  intros log result. subst log result.
  destruct (runParseToken h w tokenString) as [st' result] eqn:H.
  unfold runParseToken, ParseToken, loadJwks in H. unfold_monad.
  explore H.
  all: inversion H; subst; clear H.
  all: norm_bool; handler_simpl; try congruence.
  all: cbn [loads lookups attempts List.filter isNewKeyHandler isGetKey isRefresh isVerify
            orb app].
  all: split; [reflexivity | split].
  all: first
    [ left; reflexivity
    | left; split; reflexivity
    | right; eexists; split; [reflexivity | split; [first [assumption | reflexivity] |]];
      intros e' He'; first [discriminate He' | reflexivity]
    | right; eexists _, _; split; [reflexivity |];
      split; [intros Hm; first [reflexivity | congruence] |];
      split; [intros Hm; first [assumption | congruence] |];
      split;
      [ intros e' He'; first [discriminate He' | injection He' as <-; split; reflexivity]
      | intros key' Hk';
        first [ discriminate Hk'
              | injection Hk' as <-;
                first [left; reflexivity | right; eexists _, _, _; reflexivity] ] ] ].
Qed.

(** X12: [ParseToken] never dereferences a nil key manager: the call
    returns a token or an error. *)
Theorem ParseToken_never_panics (h : handler V) (w : World) (tokenString : string) :
  snd (runParseToken h w tokenString) <> Panic.
Proof.
  destruct (runParseToken h w tokenString) as [st' result] eqn:H.
  unfold runParseToken, ParseToken, loadJwks in H. unfold_monad.
  explore H.
  all: inversion H; subst; clear H; handler_simpl; first [discriminate | congruence].
Qed.

(** X13: on a handler without a key manager, a failed construction of
    the key manager ends [ParseToken] with the error wrapped twice, makes
    no other call and leaves the handler without a key manager, so that
    the next call loads again; a successful construction installs the
    key manager that was returned, whatever the call then returns. *)
Theorem ParseToken_lazy_load (h : handler V) (w : World) (tokenString : string) :
  keyHandler h = None ->
  let st' := fst (runParseToken h w tokenString) in
  let result := snd (runParseToken h w tokenString) in
  (forall e, In (CallNewKeyHandler (inl e)) (st_calls st') ->
     keyHandler (st_handler st') = None /\
     st_calls st' = [CallNewKeyHandler (inl e)] /\
     result = Err (ErrorfW "unable to load jwks: %w" []
                     (ErrorfW "unable to initialize keyHandler: %w" [] e))) /\
  (forall p, In (CallNewKeyHandler (inr p)) (st_calls st') ->
     keyHandler (st_handler st') = Some p) /\
  (keyHandler (st_handler st') = None ->
     exists e, result = Err (ErrorfW "unable to load jwks: %w" [] e)).
Proof.
  intros Hnone st' result. subst st' result.
  destruct (runParseToken h w tokenString) as [st' result] eqn:H.
  unfold runParseToken, ParseToken, loadJwks in H. unfold_monad.
  explore H.
  all: inversion H; subst; clear H.
  all: handler_simpl; try congruence.
  all: split; [| split].
  all: try (intros x Hin; cbn in Hin;
            repeat (destruct Hin as [Hin | Hin]; [first [discriminate Hin | injection Hin as <-] |]);
            first [contradiction | auto]; fail).
  all: try (intros Hk; first [discriminate Hk | eauto]; fail).
Qed.

(** X14: [SetIssuer] accepts the empty issuer that [NewHandler] refuses;
    once it is set, [ParseToken] returns no token, whatever the token
    string and the world. *)
Theorem SetIssuer_empty_rejects_all (h : handler V) (w0 w : World) (tokenString : string) :
  let h' := st_handler (fst (SetIssuer "" (mkPState h w0 []))) in
  issuer h' = "" /\
  forall token, snd (runParseToken h' w tokenString) <> Ok token.
Proof.
  intros h'. split; [reflexivity |].
  intros token Hok.
  destruct (runParseToken h' w tokenString) as [st' result] eqn:H.
  simpl in Hok. subst result.
  apply ParseToken_Ok_issuer in H. now elim H.
Qed.

(** X15: [loadJwks] installs a key manager exactly when it succeeds, and
    then the JWKS URI of the handler is not empty; when it fails the key
    manager of the handler is the one it had.  With a JWKS URI already
    set, discovery is skipped: the URI is kept and the world is changed
    by the construction of the key manager alone. *)
Theorem loadJwks_installs (st st' : PState V) (r : outcome unit) :
  loadJwks st = (st', r) ->
  r <> Panic /\
  (r = Ok tt ->
     keyHandler (st_handler st') <> None /\ jwksUri (st_handler st') <> "") /\
  (forall e, r = Err e -> keyHandler (st_handler st') = keyHandler (st_handler st)) /\
  (jwksUri (st_handler st) <> "" ->
     jwksUri (st_handler st') = jwksUri (st_handler st) /\
     st_world st'
     = fst (newKeyHandler (httpClient (st_handler st)) (jwksUri (st_handler st))
              (jwksFetchTimeout (st_handler st)) (jwksRateLimit (st_handler st))
              (disableKeyID (st_handler st)) (st_world st))).
Proof.
  intros H. unfold loadJwks in H. unfold_monad.
  explore H.
  all: inversion H; subst; clear H.
  all: handler_simpl.
  all: repeat match goal with
              | E : String.eqb _ _ = true |- _ => apply String.eqb_eq in E
              | E : String.eqb _ _ = false |- _ => apply String.eqb_neq in E
              end.
  all: split; [discriminate | split; [| split]].
  all: try (intros Hr; first [discriminate Hr | split; [discriminate | assumption]]; fail).
  all: try (intros e' He'; reflexivity).
  all: intros Hset; try congruence.
  all: split; [reflexivity |].
  all: first
    [ reflexivity
    | match goal with
      | E : newKeyHandler _ _ _ _ _ _ = _ |- _ => rewrite E; reflexivity
      end ].
Qed.

End Pipeline.

Section GateOrder.
Context {V : Type} `{Lib : Library V} `{CM : ClaimsMatcher V} `{KM : KeyManager}.

(** X18: once a signature check has accepted a token, the gates decide
    in their order and the first that fails gives the error: expiration,
    then issuer, then audience, then the token's claims as a map, then
    the required claims; a token that passes them all is returned. *)
Theorem ParseToken_gate_order (h : handler V) (w : World) (tokenString : string)
    (key : Key) (alg : SignatureAlgorithm) (token : Token) :
  let st' := fst (runParseToken h w tokenString) in
  let result := snd (runParseToken h w tokenString) in
  let expirationValid :=
    isTokenExpirationValid (time_Now (st_world st')) (tok_Expiration token)
      (allowedTokenDrift h) in
  let issuerValid := isTokenIssuerValid (issuer h) (tok_Issuer token) in
  let audienceValid := isTokenAudienceValid (requiredAudience h) (tok_Audience token) in
  In (CallVerify key alg (inr token)) (st_calls st') ->
  (expirationValid = false -> result = Err (Errorf "token has expired: %s" [])) /\
  (expirationValid = true -> issuerValid = false ->
     result = Err (Errorf "required issuer %q was not found, received: %s"
                     [issuer h; tok_Issuer token])) /\
  (expirationValid = true -> issuerValid = true -> audienceValid = false ->
     result = Err (Errorf "required audience %q was not found, received: %v"
                     (requiredAudience h :: tok_Audience token))) /\
  (expirationValid = true -> issuerValid = true -> audienceValid = true ->
     match requiredClaims h with
     | None => result = Ok token
     | Some required =>
         match Token_AsMap token with
         | inl msg =>
             result = Err (ErrorfW "unable to get token claims: %w" [] (ExternalError msg))
         | inr tokenClaims =>
             match isRequiredClaimsValid required tokenClaims with
             | Some e =>
                 result = Err (ErrorfW "unable to validate required claims: %w" [] e)
             | None => result = Ok token
             end
         end
     end).
Proof.
  intros st' result. subst st' result.
  destruct (runParseToken h w tokenString) as [st' result] eqn:H.
  unfold runParseToken, ParseToken, loadJwks in H. unfold_monad.
  explore H.
  all: inversion H; subst; clear H.
  all: norm_bool; handler_simpl.
  all: cbv zeta; intros Hin.
  all: cbn [app In] in Hin.
  all: repeat (destruct Hin as [Hin | Hin];
               [first [discriminate Hin | injection Hin as <- <- <-] |]).
  all: try contradiction.
  all: repeat match goal with
              | E : ?x = _ |- context [match ?x with _ => _ end] => rewrite E
              end.
  all: split; [| split; [| split]]; intros; first [reflexivity | congruence].
Qed.

End GateOrder.

(** ** The verdict of the required-claims check *)

Section Verdict.
Context {V : Type} `{CM : ClaimsMatcher V}.

(** X16: whether the required-claims check accepts does not depend on
    the order in which the required map is visited (the error, when
    there is one, may). *)
Theorem isRequiredClaimsValid_order_independent
    (visited required : list (string * V)) (tokenClaims : gmap string V) :
  Permutation visited required ->
  (isRequiredClaimsValid visited tokenClaims = None <->
   isRequiredClaimsValid required tokenClaims = None).
Proof.
  intros Hperm. rewrite !isRequiredClaimsValid_None. split; intros Hall.
  - eapply Permutation_Forall; eassumption.
  - eapply Permutation_Forall; [apply Permutation_sym |]; eassumption.
Qed.

(** X17: claims that the token carries beyond the required ones do no
    harm: if the check accepts some token claims, it accepts every
    extension of them. *)
Theorem isRequiredClaimsValid_more_claims
    (required : list (string * V)) (tokenClaims tokenClaims' : gmap string V) :
  tokenClaims ⊆ tokenClaims' ->
  isRequiredClaimsValid required tokenClaims = None ->
  isRequiredClaimsValid required tokenClaims' = None.
Proof.
  intros Hsub. rewrite !isRequiredClaimsValid_None. intros Hall.
  eapply List.Forall_impl; [| exact Hall].
  intros [k v] (tv & Hk & Hc). exists tv. split; [| exact Hc].
  simpl in *. eapply lookup_weaken; eassumption.
Qed.

End Verdict.

(** ** The further properties on the issuer of the examples *)

Lemma isRequiredClaimsValid_order_independent_witness :
  isRequiredClaimsValid (H := SpecClaimsMatcher)
    [("azp", CString "c"); ("tid", CString "t")] {["azp" := CString "c"]} = None <->
  isRequiredClaimsValid (H := SpecClaimsMatcher)
    [("tid", CString "t"); ("azp", CString "c")] {["azp" := CString "c"]} = None.
Proof.
  apply (isRequiredClaimsValid_order_independent (CM := SpecClaimsMatcher)).
  apply perm_swap.
Defined.

Lemma isRequiredClaimsValid_more_claims_witness :
  isRequiredClaimsValid (H := SpecClaimsMatcher)
    [("azp", CString "c")] (<["tid" := CString "t"]> {["azp" := CString "c"]}) = None.
Proof.
  apply (isRequiredClaimsValid_more_claims (CM := SpecClaimsMatcher)
           [("azp", CString "c")] {["azp" := CString "c"]}).
  - apply insert_subseteq. reflexivity.
  - reflexivity.
Defined.

Lemma NewHandler_empty_issuer_witness :
  NewHandler (Lib := Fixture.lib) (KM := ModelKeyManager) Examples.noIssuer
    (Fixture.emptyWorld (inr [Fixture.K1]))
  = (Fixture.emptyWorld (inr [Fixture.K1]), Err (Errorf "issuer is empty" [])).
Proof.
  apply (NewHandler_empty_issuer (Lib := Fixture.lib) (KM := ModelKeyManager)).
  reflexivity.
Defined.

Lemma NewHandler_unknown_fallback_witness :
  exists e,
    NewHandler (Lib := Fixture.lib) (KM := ModelKeyManager) Examples.badFallback
      (Fixture.emptyWorld (inr [Fixture.K1]))
    = (Fixture.emptyWorld (inr [Fixture.K1]),
       Err (ErrorfW "FallbackSignatureAlgorithm not accepted: %w" [] e)).
Proof.
  apply (NewHandler_unknown_fallback (Lib := Fixture.lib) (KM := ModelKeyManager)).
  - discriminate.
  - discriminate.
  - vm_compute. intros Hin.
    repeat (destruct Hin as [Hin | Hin]; [discriminate Hin |]). exact Hin.
Defined.

Lemma NewHandler_defaults_witness :
  exists w' h,
    NewHandler (Lib := Fixture.lib) (KM := ModelKeyManager) (Fixture.options true)
      (Fixture.emptyWorld (inr [Fixture.K1])) = (w', Ok h) /\
    jwksFetchTimeout h = 5 * time.Second /\
    jwksRateLimit h = 1 /\
    httpClient h = Some DefaultClient.
Proof.
  destruct (NewHandler (Lib := Fixture.lib) (KM := ModelKeyManager) (Fixture.options true)
              (Fixture.emptyWorld (inr [Fixture.K1]))) as [w' o] eqn:Hnew.
  assert (Ho : exists h, o = Ok h).
  { change o with (snd (w', o)). rewrite <- Hnew. vm_compute. eexists. reflexivity. }
  destruct Ho as [h ->]. exists w', h. split; [reflexivity |].
  pose proof (NewHandler_defaults (Lib := Fixture.lib) (KM := ModelKeyManager) _ _ _ _ Hnew)
    as (_ & _ & _ & _ & Htimeout & Hrate & Hclient & _).
  split; [exact Htimeout | split; [exact Hrate | exact Hclient]].
Defined.

Lemma NewHandler_lazy_or_loaded_witness :
  exists w' h,
    NewHandler (Lib := Fixture.lib) (KM := ModelKeyManager) (Fixture.options false)
      (Fixture.emptyWorld (inr [Fixture.K1])) = (w', Ok h) /\
    keyHandler h <> None /\ jwksUri h <> "".
Proof.
  destruct (NewHandler (Lib := Fixture.lib) (KM := ModelKeyManager) (Fixture.options false)
              (Fixture.emptyWorld (inr [Fixture.K1]))) as [w' o] eqn:Hnew.
  assert (Ho : exists h, o = Ok h).
  { change o with (snd (w', o)). rewrite <- Hnew. vm_compute. eexists. reflexivity. }
  destruct Ho as [h ->]. exists w', h. split; [reflexivity |].
  destruct (proj2 (NewHandler_lazy_or_loaded (Lib := Fixture.lib) (KM := ModelKeyManager) _ _ _ _ Hnew) eq_refl)
    as (Hkh & Huri & _).
  split; assumption.
Defined.


Lemma ParseToken_rejects_before_key_lookup_witness :
  runParseToken (Lib := Fixture.lib) (KM := ModelKeyManager) Examples.typedPolicy
    (Fixture.world Fixture.unkeyedManager (inr [Fixture.K1])) "tokenA"
  = (@mkPState Claim ModelKeyManager Examples.typedPolicy
       (Fixture.world Fixture.unkeyedManager (inr [Fixture.K1])) [],
     Err (Errorf "token type %q required" ["at+jwt"])).
Proof.
  apply (proj1 (ParseToken_rejects_before_key_lookup (Lib := Fixture.lib)
                  (CM := SpecClaimsMatcher) (KM := ModelKeyManager)
                  Examples.typedPolicy (Fixture.world Fixture.unkeyedManager (inr [Fixture.K1]))
                  "tokenA" 0%nat eq_refl)).
  vm_compute. reflexivity.
Defined.

Lemma ParseToken_lazy_load_witness :
  exists e,
    snd (runParseToken (Lib := Fixture.lib) (KM := ModelKeyManager)
           (Fixture.policy true None)
           (Fixture.emptyWorld (inl (ExternalError "connection refused"))) "tokenA")
    = Err (ErrorfW "unable to load jwks: %w" [] e).
Proof.
  apply (proj2 (proj2 (ParseToken_lazy_load (Lib := Fixture.lib) (CM := SpecClaimsMatcher)
                         (KM := ModelKeyManager) (Fixture.policy true None)
                         (Fixture.emptyWorld (inl (ExternalError "connection refused")))
                         "tokenA" eq_refl))).
  vm_compute. reflexivity.
Defined.

Lemma loadJwks_installs_witness :
  exists st',
    loadJwks (KM := ModelKeyManager)
      (@mkPState Claim ModelKeyManager (Fixture.policy true None)
         (Fixture.emptyWorld (inr [Fixture.K1])) [])
    = (st', Ok tt) /\
    keyHandler (st_handler st') <> None /\ jwksUri (st_handler st') <> "".
Proof.
  destruct (loadJwks (KM := ModelKeyManager)
              (@mkPState Claim ModelKeyManager (Fixture.policy true None)
         (Fixture.emptyWorld (inr [Fixture.K1])) []))
    as [st' o] eqn:Hload.
  assert (Ho : o = Ok tt).
  { change o with (snd (st', o)). rewrite <- Hload. vm_compute. reflexivity. }
  subst o. exists st'. split; [reflexivity |].
  exact (proj1 (proj2 (loadJwks_installs (KM := ModelKeyManager) _ _ _ Hload)) eq_refl).
Defined.

(** A handler for another issuer rejects the token of the examples at
    the issuer gate. *)
Lemma ParseToken_gate_order_witness :
  snd (runParseToken (Lib := Fixture.lib) (KM := ModelKeyManager) Examples.otherIssuerPolicy
         (Fixture.world Fixture.unkeyedManager (inr [Fixture.K1])) "tokenA")
  = Err (Errorf "required issuer %q was not found, received: %s"
           ["https://other/"; "https://issuer/"]).
Proof.
  refine (proj1 (proj2
            (ParseToken_gate_order (Lib := Fixture.lib) (CM := SpecClaimsMatcher)
               (KM := ModelKeyManager) Examples.otherIssuerPolicy
               (Fixture.world Fixture.unkeyedManager (inr [Fixture.K1])) "tokenA"
               Fixture.K1 "RS256" (Fixture.iss_token Fixture.tokenA) _)) _ _).
  - vm_compute. auto.
  - vm_compute. reflexivity.
  - vm_compute. reflexivity.
Defined.
